(** * rocketsled / turboworks: the optimisation loop and its ledger queries

    A shallow embedding of [turboworks/optimize.py] (class [OptTask]) and
    [turboworks/manage_db.py] (class [ManageDB]), and the properties of the
    design specification checked against it.

    Reading of the Python source.  [manage_db.py] uses the [print] statement,
    so the package is read with Python 2 semantics: [/] on two integers is
    floor division, and an ordering comparison between a number and a string
    does not raise (numbers sort before strings).  Integers are unbounded
    ([Z]); where [get_avg] tests the type of an integer read from the store,
    the [int] and the [long] of Python 2 are told apart by size.  Floats are
    IEEE binary64 ([PrimFloat.float]); strings are [string].  Exceptions are
    values of [pyerr] carried by the [result] monad. *)

From Stdlib Require Import ZArith List String Ascii Floats Lia.
From stdpp Require Import gmap strings list.

Set Default Proof Using "Type".

(** A decimal literal such as [0.05] denotes the nearest binary64 value, in
    Python as here. *)
Set Warnings "-inexact-float".

(** ** Python values *)

Module Py.

Inductive pyerr :=
  | ValueError | TypeError | KeyError | IndexError
  | AttributeError | NameError | OverflowError | ZeroDivisionError.

Inductive result (A : Type) :=
  | Ok (a : A)
  | Raise (e : pyerr).
Arguments Ok {A} a.
Arguments Raise {A} e.

#[global] Instance result_ret : MRet result := fun A a => Ok a.
#[global] Instance result_bind : MBind result := fun A B f m =>
  match m with Ok a => f a | Raise e => Raise e end.
#[global] Instance result_fmap : FMap result := fun A B f m =>
  match m with Ok a => Ok (f a) | Raise e => Raise e end.

Definition is_ok {A} (r : result A) : bool :=
  match r with Ok _ => true | Raise _ => false end.

(** A loop whose body may raise: [for b in l: a = f(a, b)]. *)
Fixpoint foldM {A B} (f : A → B → result A) (a : A) (l : list B) : result A :=
  match l with
  | [] => Ok a
  | b :: l' => a' ← f a b; foldM f a' l'
  end.

(** Scalars as they come back from the document store or from the caller. *)
Inductive value :=
  | VInt (n : Z)
  | VFloat (f : float)
  | VStr (s : string).

Inductive pytype := TInt | TFloat | TStr.

Definition type_of (v : value) : pytype :=
  match v with VInt _ => TInt | VFloat _ => TFloat | VStr _ => TStr end.

Definition pytype_eqb (a b : pytype) : bool :=
  match a, b with
  | TInt, TInt | TFloat, TFloat | TStr, TStr => true
  | _, _ => false
  end.

(** [type(v) in table] *)
Definition type_in (v : value) (table : list pytype) : bool :=
  existsb (pytype_eqb (type_of v)) table.

(** A Python object as the loop sees it: a scalar, a list or a tuple of
    scalars.  A list never equals a tuple. *)
Inductive pyobj :=
  | Scalar (v : value)
  | PList (l : list value)
  | PTuple (l : list value).

(** *** Numbers *)

(** [float(n)] for an integer [n]: rounded to nearest even, OverflowError when
    the integer is too large for a double. *)
Definition float_of_Z (n : Z) : result float :=
  let f := SF2Prim (binary_normalize prec emax n 0 false) in
  if PrimFloat.is_infinity f then Raise OverflowError else Ok f.

(** Exact comparison of an integer with a float, as CPython does it; [None]
    when the float is a NaN. *)
Definition Z_float_compare (n : Z) (f : float) : option comparison :=
  match Prim2SF f with
  | S754_nan => None
  | S754_zero _ => Some (n ?= 0)%Z
  | S754_infinity s => Some (if s then Gt else Lt)
  | S754_finite s m e =>
      let v := if s then Z.neg m else Z.pos m in
      Some (if (0 <=? e)%Z then (n ?= v * 2 ^ e)%Z else (n * 2 ^ (- e) ?= v)%Z)
  end.

(** [a == b] *)
Definition py_eq (a b : value) : bool :=
  match a, b with
  | VInt x, VInt y => (x =? y)%Z
  | VFloat x, VFloat y => PrimFloat.eqb x y
  | VInt x, VFloat y | VFloat y, VInt x =>
      match Z_float_compare x y with Some Eq => true | _ => false end
  | VStr x, VStr y => String.eqb x y
  | _, _ => false
  end.

(** [a < b] (Python 2: a number is smaller than any string). *)
Definition py_lt (a b : value) : bool :=
  match a, b with
  | VInt x, VInt y => (x <? y)%Z
  | VFloat x, VFloat y => PrimFloat.ltb x y
  | VInt x, VFloat y =>
      match Z_float_compare x y with Some Lt => true | _ => false end
  | VFloat x, VInt y =>
      match Z_float_compare y x with Some Gt => true | _ => false end
  | VStr x, VStr y => String.ltb x y
  | (VInt _ | VFloat _), VStr _ => true
  | VStr _, (VInt _ | VFloat _) => false
  end.

Definition py_gt (a b : value) : bool := py_lt b a.

(** [n * s] for a string [s]: repetition, empty when [n <= 0]. *)
Definition str_repeat (n : Z) (s : string) : string :=
  Nat.iter (Z.to_nat n) (String.append s) EmptyString.

(** Binary arithmetic on numbers, the integer operand converted to float when
    the other one is a float. *)
Definition arith (fz : Z → Z → Z) (ff : float → float → float)
    (a b : value) : result value :=
  match a, b with
  | VInt x, VInt y => Ok (VInt (fz x y))
  | VFloat x, VFloat y => Ok (VFloat (ff x y))
  | VInt x, VFloat y => x' ← float_of_Z x; Ok (VFloat (ff x' y))
  | VFloat x, VInt y => y' ← float_of_Z y; Ok (VFloat (ff x y'))
  | _, _ => Raise TypeError
  end.

(** [a + b] *)
Definition py_add (a b : value) : result value :=
  match a, b with
  | VStr x, VStr y => Ok (VStr (String.append x y))
  | _, _ => arith Z.add PrimFloat.add a b
  end.

(** [a - b] *)
Definition py_sub (a b : value) : result value :=
  arith Z.sub PrimFloat.sub a b.

(** [a * b] *)
Definition py_mul (a b : value) : result value :=
  match a, b with
  | VInt n, VStr s | VStr s, VInt n => Ok (VStr (str_repeat n s))
  | _, _ => arith Z.mul PrimFloat.mul a b
  end.

(** [a >= b] *)
Definition py_ge (a b : value) : bool := py_gt a b || py_eq a b.

(** [a / b] (Python 2, no true division): floor division on two integers. *)
Definition py_div (a b : value) : result value :=
  match a, b with
  | VInt x, VInt y =>
      if (y =? 0)%Z then Raise ZeroDivisionError else Ok (VInt (x / y))
  | VFloat x, VFloat y =>
      if PrimFloat.eqb y 0 then Raise ZeroDivisionError
      else Ok (VFloat (PrimFloat.div x y))
  | VInt x, VFloat y =>
      x' ← float_of_Z x;
      if PrimFloat.eqb y 0 then Raise ZeroDivisionError
      else Ok (VFloat (PrimFloat.div x' y))
  | VFloat x, VInt y =>
      y' ← float_of_Z y;
      if PrimFloat.eqb y' 0 then Raise ZeroDivisionError
      else Ok (VFloat (PrimFloat.div x y'))
  | _, _ => Raise TypeError
  end.

(** [int(f)] for a float: truncation toward zero. *)
Definition Z_of_float (f : float) : result Z :=
  match Prim2SF f with
  | S754_nan => Raise ValueError
  | S754_infinity _ => Raise OverflowError
  | S754_zero _ => Ok 0%Z
  | S754_finite s m e =>
      let a := if (0 <=? e)%Z then (Z.pos m * 2 ^ e)%Z
               else (Z.pos m / 2 ^ (- e))%Z in
      Ok (if s then (- a)%Z else a)
  end.

(** [int(v)] and [float(v)] for a number [v]. *)
Definition py_int (v : value) : result value :=
  match v with
  | VInt n => Ok (VInt n)
  | VFloat f => VInt <$> Z_of_float f
  | VStr _ => Raise ValueError
  end.

Definition py_float (v : value) : result value :=
  match v with
  | VInt n => VFloat <$> float_of_Z n
  | VFloat f => Ok (VFloat f)
  | VStr _ => Raise ValueError
  end.

(** *** Sequences *)

(** [l[i]] on a list or tuple *)
Definition getitem (l : list value) (i : nat) : result value :=
  match l !! i with Some v => Ok v | None => Raise IndexError end.

Definition chars (s : string) : list value :=
  (fun c => VStr (String c EmptyString)) <$> list_ascii_of_string s.

(** The items an object yields when iterated, e.g. by [tuple(o)]. *)
Definition obj_items (o : pyobj) : result (list value) :=
  match o with
  | PList l | PTuple l => Ok l
  | Scalar (VStr s) => Ok (chars s)
  | Scalar _ => Raise TypeError
  end.

(** [tuple(o)] *)
Definition py_tuple (o : pyobj) : result pyobj := PTuple <$> obj_items o.

(** [o[i]] *)
Definition obj_getitem (o : pyobj) (i : nat) : result value :=
  l ← obj_items o; getitem l i.

(** [len(o)] *)
Definition py_len (o : pyobj) : result nat := length <$> obj_items o.

Fixpoint list_eq (l1 l2 : list value) : bool :=
  match l1, l2 with
  | [], [] => true
  | a :: l1', b :: l2' => py_eq a b && list_eq l1' l2'
  | _, _ => false
  end.

(** [a == b] on objects: a list and a tuple are never equal. *)
Definition obj_eq (a b : pyobj) : bool :=
  match a, b with
  | Scalar x, Scalar y => py_eq x y
  | PList x, PList y => list_eq x y
  | PTuple x, PTuple y => list_eq x y
  | _, _ => false
  end.

(** [a in l] *)
Definition py_in (a : pyobj) (l : list pyobj) : bool := existsb (obj_eq a) l.

(** [l.remove(a)]: drops the first element equal to [a]. *)
Fixpoint list_remove (a : pyobj) (l : list pyobj) : list pyobj :=
  match l with
  | [] => []
  | b :: l' => if obj_eq b a then l' else b :: list_remove a l'
  end.

(** [a + b] on objects *)
Definition obj_add (a b : pyobj) : result pyobj :=
  match a, b with
  | Scalar x, Scalar y => Scalar <$> py_add x y
  | PList x, PList y => Ok (PList (x ++ y))
  | PTuple x, PTuple y => Ok (PTuple (x ++ y))
  | _, _ => Raise TypeError
  end.

(** [-1 * a] on objects: a sequence repeated a negative number of times is
    empty. *)
Definition obj_neg (a : pyobj) : result pyobj :=
  match a with
  | Scalar v => Scalar <$> py_mul (VInt (-1)) v
  | PList _ => Ok (PList [])
  | PTuple _ => Ok (PTuple [])
  end.

(** [o[:n]] and [o[n:]] keep the kind of sequence. *)
Definition slice_to (n : nat) (o : pyobj) : result pyobj :=
  match o with
  | PList l => Ok (PList (take n l))
  | PTuple l => Ok (PTuple (take n l))
  | Scalar (VStr s) => Ok (Scalar (VStr (String.substring 0 n s)))
  | Scalar _ => Raise TypeError
  end.

Definition slice_from (n : nat) (o : pyobj) : result pyobj :=
  match o with
  | PList l => Ok (PList (drop n l))
  | PTuple l => Ok (PTuple (drop n l))
  | Scalar (VStr s) =>
      Ok (Scalar (VStr (String.substring n (String.length s - n) s)))
  | Scalar _ => Raise TypeError
  end.

(** What the document store gives back for a stored object: arrays come back
    as lists. *)
Definition to_bson (o : pyobj) : pyobj :=
  match o with PTuple l => PList l | _ => o end.

End Py.
Export Py.

(** ** The type tables *)

Module dtypes.

(** Modelled from the spec: the type tables of [references/dtypes.py], which
    [optimize.py] imports and which is not part of the sources.  The spec
    calls a bound "of integer type" or "float", and a label "non-numeric";
    a space is discrete when it has integer bounds or categorical labels. *)
Definition ints : list pytype := [TInt].
Definition floats : list pytype := [TFloat].
Definition numbers : list pytype := ints ++ floats.
Definition others : list pytype := [TStr].
Definition discrete : list pytype := ints ++ others.

End dtypes.

(** ** The optimisation task *)

Module OptTask.

(** A dimension is the tuple the caller declared: [(low, high)] for a range,
    the labels for a categorical dimension. *)
Abbreviation dimension := (list value).

(** [_is_discrete(dims)] *)
Fixpoint _is_discrete (dims : list dimension) : result bool :=
  match dims with
  | [] => Ok true
  | dim :: dims' =>
      d0 ← getitem dim 0;
      if negb (type_in d0 dtypes.discrete) then Ok false
      else
        d1 ← getitem dim 1;
        if negb (type_in d1 dtypes.discrete) then Ok false
        else _is_discrete dims'
  end.

(** [range(lower, upper)] as a list; both arguments must be integers. *)
Definition py_range (lower upper : value) : result (list value) :=
  match lower, upper with
  | VInt a, VInt b => Ok (VInt <$> seqZ a (b - a))
  | _, _ => Raise TypeError
  end.

(** The body of the loop of [_calculate_discrete_space]: the values of one
    dimension. *)
Definition dimspace_of (dim : dimension) : result (list value) :=
  d0 ← getitem dim 0;
  if type_in d0 dtypes.ints then
    let lower := d0 in
    upper ← getitem dim 1;
    upper1 ← py_add upper (VInt 1);
    py_range lower upper1
  else if type_in d0 dtypes.floats then
    Raise ValueError
  else
    Ok dim.

(** [itertools.product] applied to the pools, following the reference
    implementation of the library: [result = [[]]], then for each pool
    [result = [x+[y] for x in result for y in pool]]. *)
Definition product_step (res : list (list value)) (pool : list value)
    : list (list value) :=
  x ← res; (fun y => x ++ [y]) <$> pool.

Definition itertools_product (pools : list (list value)) : list (list value) :=
  fold_left product_step pools [[]].

(** [_calculate_discrete_space(dims)]: one-element lists for a single
    dimension, tuples otherwise. *)
Definition _calculate_discrete_space (dims : list dimension)
    : result (list pyobj) :=
  total_dimspace ← mapM dimspace_of dims;
  if Nat.eqb (length dims) 1 then
    dimspace0 ← match total_dimspace with
                | d :: _ => Ok d
                | [] => Raise IndexError
                end;
    Ok ((fun x => PList [x]) <$> dimspace0)
  else
    Ok (PTuple <$> itertools_product total_dimspace).

(** *** The collection *)

(** A stored document is a dictionary; the collection lists the documents in
    the order [find()] yields them, and a document's identifier is its
    position. *)
Abbreviation doc := (gmap string pyobj).
Abbreviation collection := (list (gmap string pyobj)).

(** [d[k]] *)
Definition doc_get (d : doc) (k : string) : result pyobj :=
  match d !! k with Some o => Ok o | None => Raise KeyError end.

(** [k in d] *)
Definition has_key (d : doc) (k : string) : bool := bool_decide (is_Some (d !! k)).

Inductive store_result :=
  | InsertOneResult (inserted_id : nat)
  | UpdateResult.

(** [_store(spec, update, id)]: [insert_one(spec)], or
    [update({"_id": id}, {'$set': spec})], which overwrites the fields of
    [spec] in the document [id] and keeps its other fields. *)
Definition _store (spec : doc) (update : bool) (id : option nat)
    (c : collection) : collection * store_result :=
  let spec := to_bson <$> spec in
  if negb update then (c ++ [spec], InsertOneResult (length c))
  else
    match id with
    | Some i => (alter (fun d => spec ∪ d) i c, UpdateResult)
    | None => (c, UpdateResult)
    end.

(** *** Duplicate check *)

(** [random.choice(l)]: the element at a drawn index below [len(l)]; the
    draw is the argument [rnd], reduced modulo the length. *)
Definition random_choice (rnd : nat) (l : list pyobj) : result pyobj :=
  match l !! (rnd mod length l) with
  | Some p => Ok p
  | None => Raise IndexError
  end.

(** One turn of [for doc in self.collection.find()] in [_dupe_check]. *)
Definition dupe_visit (available_x : list pyobj) (d : doc)
    : result (list pyobj) :=
  dx ← doc_get d "x";
  t ← py_tuple dx;
  if py_in t available_x then Ok (list_remove t available_x)
  else Ok available_x.

(** [_dupe_check(x, X_dim)] on the collection [c]. *)
Definition _dupe_check (rnd : nat) (c : collection) (x : pyobj)
    (X_dim : list dimension) : result pyobj :=
  available_x ← _calculate_discrete_space X_dim;
  available_x ← foldM dupe_visit available_x c;
  if Nat.eqb (length available_x) 0 then Raise ValueError
  else if py_in x available_x then Ok x
  else random_choice rnd available_x.

(** *** Inferred dimensions of z *)

(** [dims] is a list of lists that are updated in place, and several entries
    of [dims] can be the one list [cat_values]: an entry is either a list of
    its own or the shared [cat_values]. *)
Inductive cell :=
  | Own (l : list value)
  | Cat.

Record zstate := {
  zs_dims : list cell;
  zs_cat : list value
}.

(** The list behind an entry of [dims]. *)
Definition deref (st : zstate) (d : cell) : list value :=
  match d with Own l => l | Cat => zs_cat st end.

(** [dims[i][k] = v] *)
Definition write_item (st : zstate) (i k : nat) (v : value) : zstate :=
  match zs_dims st !! i with
  | Some (Own l) =>
      {| zs_dims := <[i := Own (<[k := v]> l)]> (zs_dims st);
         zs_cat := zs_cat st |}
  | Some Cat => {| zs_dims := zs_dims st; zs_cat := <[k := v]> (zs_cat st) |}
  | None => st
  end.

(** [v in cat_values] *)
Definition in_values (v : value) (l : list value) : bool := existsb (py_eq v) l.

(** [dim[k]], where [dim] is the list that [dims[i]] names. *)
Definition read_item (st : zstate) (i k : nat) : result value :=
  match zs_dims st !! i with
  | Some dim => getitem (deref st dim) k
  | None => Raise IndexError
  end.

(** The body of [for i, dim in enumerate(dims)] in the first loop.  Until
    the body rebinds [dims[i]], [dim] and [dims[i]] are the same list. *)
Definition observe (z : pyobj) (st : zstate) (i : nat) : result zstate :=
  zi ← obj_getitem z i;
  if type_in zi dtypes.others then
    if negb (in_values zi (zs_cat st)) then
      Ok {| zs_dims := <[i := Cat]> (zs_dims st);
            zs_cat := zs_cat st ++ [zi] |}
    else Ok st
  else
    d0 ← read_item st i 0;
    if py_lt zi d0 then Ok (write_item st i 0 zi)
    else
      d1 ← read_item st i 1;
      if py_gt zi d1 then Ok (write_item st i 1 zi)
      else Ok st.

(** The body of [for i, dim in enumerate(dims)] in the widening loop. *)
Definition widen (st : zstate) (i : nat) : result zstate :=
  d0 ← read_item st i 0;
  if type_in d0 dtypes.numbers then
    st ← (if type_in d0 dtypes.floats then
            e ← py_mul (VFloat 0.05) d0;
            lo ← py_sub d0 e;
            let st := write_item st i 0 lo in
            d1 ← read_item st i 1;
            e ← py_mul (VFloat 0.05) d1;
            hi ← py_add d1 e;
            Ok (write_item st i 1 hi)
          else if type_in d0 dtypes.ints then
            lo ← py_sub d0 (VInt 1);
            let st := write_item st i 0 lo in
            d1 ← read_item st i 1;
            hi ← py_add d1 (VInt 1);
            Ok (write_item st i 1 hi)
          else Ok st);
    d0 ← read_item st i 0;
    d1 ← read_item st i 1;
    if py_gt d0 d1 then
      Ok {| zs_dims := <[i := Own [d1; d0]]> (zs_dims st);
            zs_cat := zs_cat st |}
    else Ok st
  else Ok st.

(** [_Z_dims] on the collection [c].  [check = dims] gives the list a second
    name, so [dims == check] compares the list with itself and the widening
    loop always runs. *)
Definition _Z_dims (c : collection) : result (list dimension) :=
  Z ← mapM (fun d => doc_get d "z") c;
  Z0 ← match Z with z0 :: _ => Ok z0 | [] => Raise IndexError end;
  z0 ← obj_items Z0;
  let dims := (fun z => Own [z; z]) <$> z0 in
  let st := {| zs_dims := dims; zs_cat := [] |} in
  let positions := seq 0 (length dims) in
  st ← foldM (fun st z => foldM (observe z) st positions) st Z;
  let dims_eq_check := true in
  st ← (if dims_eq_check then foldM widen st positions else Ok st);
  Ok (deref st <$> zs_dims st).

(** *** One iteration of the loop *)

(** The value of an argument container: an object or a dictionary. *)
Inductive pyarg :=
  | ArgObj (o : pyobj)
  | ArgDict (m : gmap string pyobj).

Definition isinstance_list (a : pyarg) : bool :=
  match a with ArgObj (PList _) => true | _ => false end.
Definition isinstance_tuple (a : pyarg) : bool :=
  match a with ArgObj (PTuple _) => true | _ => false end.
Definition isinstance_dict (a : pyarg) : bool :=
  match a with ArgDict _ => true | _ => false end.

(** The positional arguments of a call [f(..., *a)]. *)
Definition star_args (a : pyarg) : result (list value) :=
  match a with
  | ArgObj o => obj_items o
  | ArgDict m => Ok ((fun kv => VStr kv.1) <$> map_to_list m)
  end.

(** The keyword arguments of a call [f(..., **a)]. *)
Definition star_kwargs (a : pyarg) : result (gmap string pyobj) :=
  match a with
  | ArgDict m => Ok m
  | ArgObj _ => Raise TypeError
  end.

(** A predictor: [(X, Y, dimensions) -> x_tot_new]. *)
Abbreviation predictor_fun :=
  (list pyobj → list pyobj → list (list value) → result pyobj).

Section run_task.

(** The workflows the creation callback builds. *)
Context {W : Type}.

(** The outside world of the loop: the suggestion of a built-in backend,
    [getattr(skopt, name)(...).x_iters[-1]], and the import of a custom
    predictor by name. *)
Variable skopt : string → predictor_fun.
Variable deserialize_predictor : string → result predictor_fun.

(** The parameters of the task ([self]); an optional parameter is [None]
    when the key is absent.  The function references [wf_creator] and
    [get_z] stand for the functions they name. *)
Record task := {
  wf_creator : pyobj → list value → gmap string pyobj → result W;
  dimensions : list pyobj;
  get_z : option (pyobj → result pyobj);
  predictor : option string;
  max : option bool;
  wf_creator_args : option pyarg;
  wf_creator_kwargs : option pyarg;
  duplicate_check : option bool;
  host : option value;
  port : option value;
  name : option value;
  opt_label : option string;
  lpad : option (gmap string value)
}.

Record fw_spec := {
  _tw_x : option pyobj;
  _tw_y : option pyobj;
  _add_launchpad_and_fw_id : option bool
}.

Record FWAction := {
  additions : W;
  optimization_id : nat
}.

(** [k in self] *)
Definition present {A} (o : option A) : bool :=
  match o with Some _ => true | None => false end.

Definition spec_get {A} (o : option A) : result A :=
  match o with Some a => Ok a | None => Raise KeyError end.

(** Which database holds the optimisation data. *)
Definition database (self : task) (spec : fw_spec)
    : result (value * value * value) :=
  if present (host self) || present (port self) || present (name self)
  then
    match host self, port self, name self with
    | Some h, Some p, Some n => Ok (h, p, n)
    | _, _, _ => Raise AttributeError
    end
  else
    match lpad self with
    | Some l =>
        match l !! "host", l !! "port", l !! "name" with
        | Some h, Some p, Some n => Ok (h, p, n)
        | _, _, _ => Raise KeyError
        end
    | None =>
        match _add_launchpad_and_fw_id spec with
        | Some _ => Raise NameError
        | None => Raise AttributeError
        end
    end.

Definition skopt_names : list string :=
  ["gbrt_minimize"; "random_guess"; "forest_minimize"; "gp_minimize"]%string.

(** The dispatch to the predictor; whatever a custom predictor raises is
    raised again as a ValueError. *)
Definition predict (self : task) (X_tot Y : list pyobj)
    (X_tot_dims : list dimension) : result pyobj :=
  let predictor := default "forest_minimize"%string (predictor self) in
  if bool_decide (predictor ∈ skopt_names) then
    skopt predictor X_tot Y X_tot_dims
  else
    match deserialize_predictor predictor with
    | Ok predictor_fun =>
        match predictor_fun X_tot Y X_tot_dims with
        | Ok x_tot_new => Ok x_tot_new
        | Raise _ => Raise ValueError
        end
    | Raise _ => Raise ValueError
    end.

(** The read of the history, [for doc in self.collection.find(): ...]: the
    rows of [X_tot] and [Y] of the documents that carry x, y and z. *)
Definition gather_visit (acc : list pyobj * list pyobj) (d : doc)
    : result (list pyobj * list pyobj) :=
  if has_key d "x" && has_key d "y" && has_key d "z" then
    dx ← doc_get d "x";
    dz ← doc_get d "z";
    row ← obj_add dx dz;
    dy ← doc_get d "y";
    Ok (acc.1 ++ [row], acc.2 ++ [dy])
  else Ok acc.

Definition gather (c : collection) : result (list pyobj * list pyobj) :=
  foldM gather_visit ([], []) c.

(** The part of [run_task] before the first write: the inputs, the type
    checks of the argument containers, the database and z. *)
Definition prepare (self : task) (spec : fw_spec)
    : result (pyobj * pyobj * list dimension * pyarg * pyarg * pyobj) :=
  x ← spec_get (_tw_x spec);
  y ← spec_get (_tw_y spec);
  X_dims ← mapM obj_items (dimensions self);
  let wf_creator_args := default (ArgObj (PList [])) (wf_creator_args self) in
  if negb (isinstance_list wf_creator_args) || isinstance_tuple wf_creator_args
  then Raise TypeError
  else
    let wf_creator_kwargs := default (ArgDict ∅) (wf_creator_kwargs self) in
    if negb (isinstance_dict wf_creator_kwargs) then Raise TypeError
    else
      _ ← database self spec;
      z ← match get_z self with Some f => f x | None => Ok (PList []) end;
      Ok (x, y, X_dims, wf_creator_args, wf_creator_kwargs, z).

(** The part of [run_task] between the two writes: it only reads the
    collection. *)
Definition propose (self : task) (rnd : nat) (c : collection)
    (x z : pyobj) (X_dims : list dimension) : result (pyobj * pyobj) :=
  '(X_tot, Y) ← gather c;
  let max_on := default false (max self) in
  Y ← mapM (fun y => if max_on then obj_neg y else Ok y) Y;
  X_tot_dims ← (if negb (obj_eq z (PList [])) then
                  Z_dims ← _Z_dims c; Ok (X_dims ++ Z_dims)
                else Ok X_dims);
  x_tot_new ← predict self X_tot Y X_tot_dims;
  n ← py_len x;
  x_new ← slice_to n x_tot_new;
  z_new ← slice_from n x_tot_new;
  x_new ← match duplicate_check self with
           | Some true =>
               is_discrete ← _is_discrete X_dims;
               if is_discrete : bool then _dupe_check rnd c x X_dims
               else Ok x_new
           | _ => Ok x_new
           end;
  Ok (x_new, z_new).

(** [run_task(fw_spec)] on the collection [c]; the result is the collection
    afterwards and the action returned or the exception raised. *)
Definition run_task (self : task) (spec : fw_spec) (rnd : nat)
    (c : collection) : collection * result FWAction :=
  match prepare self spec with
  | Raise e => (c, Raise e)
  | Ok (x, y, X_dims, wf_creator_args, wf_creator_kwargs, z) =>
      let stored := _store {[ "z" := z; "y" := y; "x" := x ]} false None c in
      let c := stored.1 in
      match stored.2 with
      | UpdateResult => (c, Raise AttributeError)
      | InsertOneResult id =>
          match propose self rnd c x z X_dims with
          | Raise e => (c, Raise e)
          | Ok (x_new, z_new) =>
              let c :=
                (_store {[ "z_new" := z_new; "x_new" := x_new ]}
                        true (Some id) c).1 in
              (c,
               args ← star_args wf_creator_args;
               kwargs ← star_kwargs wf_creator_kwargs;
               wf ← wf_creator self x_new args kwargs;
               Ok {| additions := wf; optimization_id := id |})
          end
      end
  end.

End run_task.

End OptTask.

(** ** The database utility *)

Module ManageDB.

(** A document of the managed collection has an input side and an output
    side, each a dictionary from variable names to values. *)
Abbreviation document := (gmap string (gmap string value)).

(** [document[k]] *)
Definition side (d : document) (k : string) : result (gmap string value) :=
  match d !! k with Some m => Ok m | None => Raise KeyError end.

(** The body shared by the loops of [get_avg] and [get_param]. *)
Definition collect (var : string) (total_list : list value) (d : document)
    : result (list value) :=
  inp ← side d "input";
  match inp !! var with
  | Some v => Ok (total_list ++ [v])
  | None =>
      out ← side d "output";
      match out !! var with
      | Some v => Ok (total_list ++ [v])
      | None => Raise KeyError
      end
  end.

(** [get_param(var)] *)
Definition get_param (var : string) (c : list document) : result (list value) :=
  foldM (collect var) [] c.

(** [sum(l)] *)
Definition py_sum (l : list value) : result value := foldM py_add (VInt 0) l.

(** [type(v) == np.int64 or type(v) == int] for a value read from the
    collection.  Python 2 has two integer types.  The store keeps an integer
    that fits 32 bits as a 32-bit integer and hands it back as an [int]; a
    larger one is kept in 64 bits and comes back as a [long], which is
    neither an [int] nor a [numpy.int64]. *)
Definition type_is_int (v : value) : bool :=
  match v with
  | VInt n => bool_decide (- 2 ^ 31 ≤ n < 2 ^ 31)%Z
  | _ => false
  end.

(** [type(v) == np.float64 or type(v) == float] *)
Definition type_is_float (v : value) : bool :=
  match v with VFloat _ => true | _ => false end.

(** [get_avg(var)] *)
Definition get_avg (var : string) (c : list document) : result value :=
  total_list ← foldM (collect var) [] c;
  first ← getitem total_list 0;
  if type_is_int first then
    s ← py_sum total_list;
    q ← py_div s (VInt (Z.of_nat (length total_list)));
    py_int q
  else if type_is_float first then
    s ← py_sum total_list;
    q ← py_div s (VInt (Z.of_nat (length total_list)));
    py_float q
  else Ok (VInt 0).

(** The state of the loop of [get_optima]: [min], [max], [optima_params]. *)
Record optima := {
  o_min : option value;
  o_max : option value;
  optima_params : gmap string value
}.

(** What the loop does with the value [v] found for [var]. *)
Definition track (min_or_max : string) (again : result unit)
    (v : value) (inp : gmap string value) (st : optima) : result optima :=
  if String.eqb min_or_max "min" then
    match o_min st with
    | Some m =>
        if py_lt v m then
          Ok {| o_min := Some v; o_max := o_max st; optima_params := inp |}
        else Ok st
    | None => Ok {| o_min := Some v; o_max := o_max st; optima_params := inp |}
    end
  else if String.eqb min_or_max "max" then
    match o_max st with
    | Some m =>
        if py_ge v m then
          Ok {| o_min := o_min st; o_max := Some v; optima_params := inp |}
        else Ok st
    | None => Ok {| o_min := o_min st; o_max := Some v; optima_params := inp |}
    end
  else
    _ ← again; Ok st.

Definition optima_visit (var min_or_max : string) (again : result unit)
    (st : optima) (d : document) : result optima :=
  inp ← side d "input";
  match inp !! var with
  | Some v => track min_or_max again v inp st
  | None =>
      out ← side d "output";
      match out !! var with
      | Some v =>
          inp ← side d "input";
          track min_or_max again v inp st
      | None => Raise KeyError
      end
  end.

Definition optima_scan (var min_or_max : string) (again : result unit)
    (c : list document)
    : result (option (option value * gmap string value)) :=
  st ← foldM (optima_visit var min_or_max again)
             {| o_min := None; o_max := None; optima_params := ∅ |} c;
  if String.eqb min_or_max "max" then Ok (Some (o_max st, optima_params st))
  else if String.eqb min_or_max "min" then
    Ok (Some (o_min st, optima_params st))
  else
    _ ← again; Ok None.

(** [get_optima(var, min_or_max)].  With an option other than 'min' or
    'max' the method calls [self.get_optima(var)] and drops its result; that
    inner call runs with 'min' and so calls itself no further. *)
Definition get_optima (var min_or_max : string) (c : list document)
    : result (option (option value * gmap string value)) :=
  let again :=
    _ ← optima_scan var "min" (Ok ()) c; Ok () in
  optima_scan var min_or_max again c.

End ManageDB.

(** ** The totally discrete spaces of the specification *)

Module Space.

(** A dimension of a totally discrete space: a range with integer bounds or
    a set of labels. *)
Inductive discrete_dimension :=
  | IntRange (low high : Z)
  | Labels (values : list string).

(** The tuple by which the caller declares the dimension. *)
Definition declare (d : discrete_dimension) : list value :=
  match d with
  | IntRange low high => [VInt low; VInt high]
  | Labels values => VStr <$> values
  end.

(** The number of values of the dimension and the value of index [i]. *)
Definition size (d : discrete_dimension) : nat :=
  match d with
  | IntRange low high => Z.to_nat (high - low + 1)
  | Labels values => length values
  end.

Definition value_at (d : discrete_dimension) (i : nat) : value :=
  match d with
  | IntRange low high => VInt (low + Z.of_nat i)
  | Labels values => VStr (nth i values EmptyString)
  end.

(** A categorical dimension is a non-empty set of labels without
    duplicates. *)
Definition well_formed (d : discrete_dimension) : Prop :=
  match d with
  | IntRange _ _ => True
  | Labels values => values ≠ [] ∧ NoDup values
  end.

#[global] Instance well_formed_dec d : Decision (well_formed d).
Proof. destruct d; cbn; apply _. Defined.

(** The product of the numbers of a list. *)
Definition prod (l : list nat) : nat := foldr Nat.mul 1 l.

(** [s1 * s2 * ... * sn] *)
Definition volume (ds : list discrete_dimension) : nat := prod (size <$> ds).

(** The values of the dimension, in order. *)
Definition values_of (d : discrete_dimension) : list value :=
  match d with
  | IntRange low high => VInt <$> seqZ low (high - low + 1)
  | Labels values => VStr <$> values
  end.

(** The Cartesian product by recursion on the pools: the first pool varies
    slowest. *)
Fixpoint product_rec (pools : list (list value)) : list (list value) :=
  match pools with
  | [] => [[]]
  | pool :: pools' => y ← pool; cons y <$> product_rec pools'
  end.

End Space.

(** ** The records of the ledger *)

Module Ledger.

(** A record is complete when it carries all of x, y and z. *)
Definition complete (d : gmap string pyobj) : Prop :=
  is_Some (d !! "x") ∧ is_Some (d !! "y") ∧ is_Some (d !! "z").

(** The schema of a record: its x and z, when present, are arrays. *)
Definition is_array (o : option pyobj) : Prop :=
  match o with
  | Some (PList _) | None => True
  | Some _ => False
  end.

Definition well_typed (d : gmap string pyobj) : Prop :=
  is_array (d !! "x") ∧ is_array (d !! "z").

(** The array stored under [k]. *)
Definition array (d : gmap string pyobj) (k : string) : list value :=
  match d !! k with Some (PList l) => l | _ => [] end.

(** What a complete record contributes to the history: the row x + z and
    the score y. *)
Definition row_of (d : gmap string pyobj) : pyobj * pyobj :=
  (PList (array d "x" ++ array d "z"), default (PList []) (d !! "y")).

(** A record of the managed collection has an input side and an output
    side. *)
Definition two_sided (d : gmap string (gmap string value)) : Prop :=
  is_Some (d !! "input") ∧ is_Some (d !! "output").

(** The value of [var] in a record: the input side is looked at first, then
    the output side. *)
Definition found (var : string) (d : gmap string (gmap string value))
    : option value :=
  match d !! "input" ≫= (fun inp => inp !! var) with
  | Some v => Some v
  | None => d !! "output" ≫= (fun out => out !! var)
  end.

(** The result is not a KeyError. *)
Definition no_key_error {A} (r : result A) : Prop := r ≠ Raise KeyError.

(** The record carries the key on one of its sides. *)
Definition carries (var : string) (d : gmap string (gmap string value)) : Prop :=
  is_Some (found var d).

End Ledger.

(** ** The inferred bounds of the specification *)

Module Inference.

(** The bounds inferred from the single observation [v] of a numeric
    feature: one below and one above an integer, five percent below and
    above a float, the two swapped when the lower exceeds the upper. *)
Definition widened (v : value) : list value :=
  match v with
  | VInt n => [VInt (n - 1); VInt (n + 1)]
  | VFloat f =>
      let lo := PrimFloat.sub f (PrimFloat.mul 0.05 f) in
      let hi := PrimFloat.add f (PrimFloat.mul 0.05 f) in
      if PrimFloat.ltb hi lo then [VFloat hi; VFloat lo]
      else [VFloat lo; VFloat hi]
  | VStr _ => [v; v]
  end.

Definition is_str (v : value) : Prop := type_of v = TStr.

#[global] Instance is_str_dec v : Decision (is_str v).
Proof. destruct v; [right|right|left]; done. Defined.

(** What holds of the lists of [_Z_dims] while it works on the single
    observation [z], the positions below [k] being widened already: a
    label has its initial pair or the shared list of labels, a number has
    its pair of bounds. *)
Definition single_obs (z : list value) (k : nat) (st : OptTask.zstate) : Prop :=
  length (OptTask.zs_dims st) = length z
  ∧ Forall is_str (OptTask.zs_cat st)
  ∧ ∀ i v, z !! i = Some v →
      (is_str v
       ∧ (OptTask.zs_dims st !! i = Some (OptTask.Own [v; v])
          ∨ (OptTask.zs_dims st !! i = Some OptTask.Cat
             ∧ OptTask.zs_cat st ≠ [])))
      ∨ (¬ is_str v
         ∧ OptTask.zs_dims st !! i
           = Some (OptTask.Own (if bool_decide (i < k) then widened v
                                else [v; v]))).

(** The labels of a list in the order of their first occurrence. *)
Definition first_seen (labels : list string) : list string :=
  reverse (remove_dups (reverse labels)).

(** What holds of the lists of [_Z_dims] on observations of one categorical
    feature, the labels [seen] being processed: the shared list holds their
    labels in first-seen order and, once a label was seen, is the
    dimension. *)
Definition label_obs (seen : list string) (st : OptTask.zstate) : Prop :=
  OptTask.zs_cat st = VStr <$> first_seen seen
  ∧ (OptTask.zs_dims st = [OptTask.Cat]
     ∨ (seen = [] ∧ ∃ s, OptTask.zs_dims st = [OptTask.Own [VStr s; VStr s]])).

(** [lo] and [hi] are the smallest and the largest value of column [i] of
    the rows. *)
Definition column_bounds (rows : list (list Z)) (i : nat) (lo hi : Z) : Prop :=
  (∃ r, r ∈ rows ∧ r !! i = Some lo)
  ∧ (∃ r, r ∈ rows ∧ r !! i = Some hi)
  ∧ ∀ r v, r ∈ rows → r !! i = Some v → (lo ≤ v ≤ hi)%Z.

(** What holds of the lists of [_Z_dims] on integer observations of [n]
    features, the rows [rows] being processed and the row [r] up to
    position [k]: each dimension is the pair of the bounds of its column. *)
Definition int_obs (n : nat) (rows : list (list Z)) (r : list Z) (k : nat)
    (st : OptTask.zstate) : Prop :=
  OptTask.zs_cat st = []
  ∧ length (OptTask.zs_dims st) = n
  ∧ ∀ i, i < n →
      ∃ lo hi,
        OptTask.zs_dims st !! i = Some (OptTask.Own [VInt lo; VInt hi])
        ∧ column_bounds (if bool_decide (i < k) then r :: rows else rows)
            i lo hi.

(** The same during the widening loop, the positions below [k] widened. *)
Definition int_widened (n : nat) (rows : list (list Z)) (k : nat)
    (st : OptTask.zstate) : Prop :=
  length (OptTask.zs_dims st) = n
  ∧ ∀ i, i < n →
      ∃ lo hi,
        OptTask.zs_dims st !! i
        = Some (OptTask.Own (if bool_decide (i < k)
                             then [VInt (lo - 1); VInt (hi + 1)]
                             else [VInt lo; VInt hi]))
        ∧ column_bounds rows i lo hi.

End Inference.

(** ** Concrete runs *)

Module Scenario.

Import OptTask.

(** A workflow-creation callback that returns the arguments it was called
    with. *)
Definition record_call (x : pyobj) (args : list value)
    (kwargs : gmap string pyobj)
    : result (pyobj * list value * gmap string pyobj) :=
  Ok (x, args, kwargs).

(** A task on the database ("localhost", 27017, "turboworks") with the
    default predictor. *)
Definition loop_task (dims : list pyobj) (dup : option bool)
    (args : option pyarg) : task :=
  {| wf_creator := record_call;
     dimensions := dims;
     get_z := None;
     predictor := None;
     max := None;
     wf_creator_args := args;
     wf_creator_kwargs := None;
     duplicate_check := dup;
     host := Some (VStr "localhost");
     port := Some (VInt 27017);
     name := Some (VStr "turboworks");
     opt_label := None;
     lpad := None |}.

(** The spec of a firework that evaluated [x] and scored [y]. *)
Definition evaluated (x : list value) (y : Z) : fw_spec :=
  {| _tw_x := Some (PList x);
     _tw_y := Some (Scalar (VInt y));
     _add_launchpad_and_fw_id := None |}.

(** A built-in backend that suggests [cand], and no custom predictor. *)
Definition suggest (cand : pyobj) : string → predictor_fun :=
  fun _ _ _ _ => Ok cand.
Definition no_custom : string → result predictor_fun :=
  fun _ => Raise AttributeError.


(** A record of the managed collection. *)
Definition record (i o : list (string * value)) : gmap string (gmap string value) :=
  {[ "input" := list_to_map i; "output" := list_to_map o ]}.

(** A stored trial. *)
Definition trial (x : list value) (y : Z) (z : list value) : gmap string pyobj :=
  {[ "z" := PList z; "y" := Scalar (VInt y); "x" := PList x ]}.

End Scenario.

(** ** What the checks of the space look at *)

Module Checks.

Definition is_float (v : value) : bool :=
  match v with VFloat _ => true | _ => false end.

(** No float among the first two entries of the dimension. *)
Definition first_two_discrete (dim : list value) : bool :=
  forallb (fun v => negb (is_float v)) (take 2 dim).

(** An integer lower bound with a label where the upper bound should be. *)
Definition int_then_label (dim : list value) : bool :=
  match dim with
  | VInt _ :: VStr _ :: _ => true
  | _ => false
  end.

(** A point without floats: integers and labels only. *)
Definition plain (l : list value) : bool :=
  forallb (fun v => negb (is_float v)) l.

(** The history holds arrays of integers and labels under x. *)
Definition plain_history (c : list (gmap string pyobj)) : Prop :=
  Forall (fun d => ∃ l, d !! "x" = Some (PList l) ∧ plain l = true) c.

(** Points that are tuples of integers and labels. *)
Definition plain_tuples (pts : list pyobj) : Prop :=
  Forall (fun p => ∃ l, p = PTuple l ∧ plain l = true) pts.

(** The point [q] is, as a tuple, the x of a stored document. *)
Definition stored (c : list (gmap string pyobj)) (q : pyobj) : Prop :=
  ∃ d l, d ∈ c ∧ d !! "x" = Some (PList l) ∧ q = PTuple l.

(** The tuple [t] is the x of a stored document. *)
Definition seen (c : list (gmap string pyobj)) (t : pyobj) : bool :=
  existsb (fun d => match d !! "x" with
                    | Some (PList l) => obj_eq (PTuple l) t
                    | _ => false
                    end) c.

End Checks.

(** ** Function handles *)

Module Handles.

(** [s.rsplit(sep, 1)] for a separator of one character: the text before and
    the text after the last occurrence of [sep], if there is one. *)
Fixpoint rsplit_last (sep : ascii) (s : string) : option (string * string) :=
  match s with
  | EmptyString => None
  | String a s' =>
      match rsplit_last sep s' with
      | Some (l, r) => Some (String a l, r)
      | None => if Ascii.eqb a sep then Some (EmptyString, s') else None
      end
  end.

Definition rsplit (sep : ascii) (s : string) : list string :=
  match rsplit_last sep s with
  | Some (l, r) => [l; r]
  | None => [s]
  end.

(** [c in s] for a string [c] of one character. *)
Fixpoint str_contains (c : ascii) (s : string) : bool :=
  match s with
  | EmptyString => false
  | String a s' => Ascii.eqb a c || str_contains c s'
  end.

(** [a, b = toks] *)
Definition unpack_pair (toks : list string) : result (string * string) :=
  match toks with
  | [a; b] => Ok (a, b)
  | _ => Raise ValueError
  end.

Section deserialize.

(** The functions a module exports. *)
Context {F : Type}.

(** [__import__(modname, globals(), locals(), fromlist=[funcname])] under a
    given [sys.path]: the module as a dictionary of its attributes, or
    whatever the import raises. *)
Variable import_module : list string → string → string → result (gmap string F).

(** [getattr(mod, funcname)] *)
Definition getattr (mod_ : gmap string F) (funcname : string) : result F :=
  match mod_ !! funcname with
  | Some f => Ok f
  | None => Raise AttributeError
  end.

(** [OptTask._deserialize_function]; the state is [sys.path]. *)
Definition _deserialize_function (fun_ : string) (sys_path : list string)
    : list string * result F :=
  let toks := rsplit "." fun_ in
  match unpack_pair toks with
  | Raise e => (sys_path, Raise e)
  | Ok (modname, funcname) =>
      if str_contains "/" (default EmptyString (toks !! 0)) then
        match unpack_pair (rsplit "/" (default EmptyString (toks !! 0))) with
        | Raise e => (sys_path, Raise e)
        | Ok (path, modname) =>
            let sys_path := sys_path ++ [path] in
            (sys_path,
             mod_ ← import_module sys_path modname funcname;
             getattr mod_ funcname)
        end
      else
        (sys_path,
         mod_ ← import_module sys_path modname funcname;
         getattr mod_ funcname)
  end.

End deserialize.

End Handles.

(** * Properties *)

Import OptTask ManageDB Space Ledger Inference Scenario Checks.

(** ** The result monad *)

Lemma mapM_ok {A B} (f : A → result B) (g : A → B) (l : list A) :
  Forall (fun a => f a = Ok (g a)) l → mapM f l = Ok (g <$> l).
Proof.
  induction 1 as [|a l Ha _ IH]; [done|].
  cbn [mapM] in *. rewrite Ha. cbn. rewrite IH. done.
Qed.

(** ** Enumeration of a discrete space *)

Section product.

Lemma bind_snoc_id (res : list (list value)) :
  (x ← res; [x ++ []]) = res.
Proof. induction res as [|x res IH]; csimpl; [done|]. by rewrite app_nil_r, IH. Qed.

Lemma bind_bind {A B C} (f : A → list B) (g : B → list C) (l : list A) :
  (l ≫= f) ≫= g = l ≫= (fun x => f x ≫= g).
Proof. induction l as [|x l IH]; csimpl; [done|]. by rewrite bind_app, IH. Qed.

Lemma fmap_bind_list {A B C} (f : A → list B) (g : B → C) (l : list A) :
  g <$> (l ≫= f) = l ≫= (fun x => g <$> f x).
Proof. induction l as [|x l IH]; csimpl; [done|]. by rewrite fmap_app, IH. Qed.

Lemma product_step_rec (pools : list (list value)) (res : list (list value)) :
  fold_left product_step pools res = (x ← res; app x <$> product_rec pools).
Proof.
  revert res. induction pools as [|pool pools IH]; intros res; simpl.
  - symmetry. apply bind_snoc_id.
  - rewrite IH. unfold product_step. rewrite bind_bind.
    apply list_bind_ext; [|done]. intros x.
    rewrite list_fmap_bind, fmap_bind_list.
    apply list_bind_ext; [|done]. intros y. cbn.
    rewrite <- list_fmap_compose. apply list_fmap_ext. intros _ t _. cbn.
    by rewrite <- app_assoc.
Qed.

Lemma itertools_product_rec (pools : list (list value)) :
  itertools_product pools = product_rec pools.
Proof.
  unfold itertools_product. rewrite product_step_rec. csimpl.
  rewrite app_nil_r. apply list_fmap_id.
Qed.

Lemma length_block (pool : list value) (R : list (list value)) :
  length (y ← pool; cons y <$> R) = length pool * length R.
Proof.
  induction pool as [|y pool IH]; csimpl; [done|].
  by rewrite length_app, length_fmap, IH.
Qed.

Lemma length_product_rec (pools : list (list value)) :
  length (product_rec pools) = prod (length <$> pools).
Proof.
  induction pools as [|pool pools IH]; [done|].
  cbn [product_rec]. rewrite length_block, IH. done.
Qed.

Lemma product_rec_lengths (pools : list (list value)) :
  Forall (fun l => length l = length pools) (product_rec pools).
Proof.
  induction pools as [|pool pools IH]; cbn [product_rec].
  - by repeat constructor.
  - apply Forall_bind, Forall_forall. intros y _. cbn.
    apply Forall_fmap. eapply Forall_impl; [exact IH|].
    intros l Hl. cbn. by rewrite Hl.
Qed.

Lemma NoDup_product_rec (pools : list (list value)) :
  Forall NoDup pools → NoDup (product_rec pools).
Proof.
  induction 1 as [|pool pools Hpool _ IH]; cbn [product_rec].
  - apply NoDup_singleton.
  - apply NoDup_bind; [| |done].
    + intros y1 y2 l _ _ H1 H2.
      apply list_elem_of_fmap in H1 as (t1 & -> & _).
      apply list_elem_of_fmap in H2 as (t2 & Heq & _). congruence.
    + intros y _. apply NoDup_fmap_2; [|done]. intros ?? Heq. congruence.
Qed.

(** The point of index [k] of a block product: its head is the value of
    index [k / m] of the pool and its tail the rest of index [k mod m],
    where [m] is the number of rests. *)
Lemma lookup_block (pool : list value) (R : list (list value)) k l :
  (y ← pool; cons y <$> R) !! k = Some l →
  ∃ y t, l = y :: t ∧ pool !! (k / length R) = Some y
         ∧ R !! (k mod length R) = Some t.
Proof.
  revert k. induction pool as [|y pool IH]; intros k; csimpl; [done|].
  intros Hk. destruct (decide (k < length R)) as [Hlt|Hge].
  - rewrite lookup_app_l in Hk by (by rewrite length_fmap).
    rewrite list_lookup_fmap in Hk.
    destruct (R !! k) as [t|] eqn:Ht; [|done]. injection Hk as <-.
    exists y, t. rewrite Nat.div_small, Nat.mod_small by done. done.
  - rewrite lookup_app_r in Hk by (rewrite length_fmap; lia).
    rewrite length_fmap in Hk.
    destruct (IH _ Hk) as (y' & t & -> & Hy & Ht).
    assert (length R ≠ 0) as Hnz.
    { intros H0. rewrite H0 in Ht. unfold Nat.modulo in Ht. cbn in Ht.
      apply lookup_lt_Some in Ht. lia. }
    exists y', t. split; [done|].
    replace k with ((k - length R) + 1 * length R) at 1 2 by lia.
    rewrite Nat.div_add, Nat.Div0.mod_add by done.
    replace ((k - length R) / length R + 1) with (S ((k - length R) / length R)) by lia.
    done.
Qed.

Lemma prod_lookup (l : list nat) j s :
  l !! j = Some s → ∃ a, prod l = a * (s * prod (drop (S j) l)).
Proof.
  revert j. induction l as [|x l IH]; intros [|j] Hj; try done.
  - injection Hj as ->. exists 1. rewrite skipn_cons, drop_0.
    unfold prod. simpl. lia.
  - destruct (IH _ Hj) as (a & Ha). exists (x * a).
    rewrite skipn_cons. unfold prod in *. simpl in *. rewrite Ha. lia.
Qed.

Lemma digit_mod (k a s w : nat) :
  ((k mod (a * (s * w))) / w) mod s = (k / w) mod s.
Proof.
  destruct (decide (w = 0)) as [->|Hw]; [done|].
  destruct (decide (a * (s * w) = 0)) as [->|Hm]; [done|].
  rewrite (Nat.div_mod_eq k (a * (s * w))) at 2.
  replace (a * (s * w) * (k / (a * (s * w))) + k mod (a * (s * w)))
    with ((a * (k / (a * (s * w))) * s) * w + k mod (a * (s * w))) by lia.
  rewrite Nat.div_add_l by done.
  rewrite Nat.add_comm, Nat.Div0.mod_add. done.
Qed.

(** The order of the product: the coordinate [j] of the point of index [k]
    is the digit [j] of [k] written in the mixed radix of the pool sizes,
    the last pool being the least significant one. *)
Lemma lookup_product_rec (pools : list (list value)) k l :
  product_rec pools !! k = Some l →
  ∀ j pool, pools !! j = Some pool →
    l !! j = pool !! ((k / prod (length <$> drop (S j) pools)) mod length pool).
Proof.
  revert k l. induction pools as [|p pools IH]; intros k l Hk j pool Hj;
    [done|].
  cbn [product_rec] in Hk.
  pose proof (lookup_lt_Some _ _ _ Hk) as Hlt.
  rewrite length_block, length_product_rec in Hlt.
  apply lookup_block in Hk as (y & t & -> & Hy & Ht).
  rewrite length_product_rec in Hy, Ht.
  destruct j as [|j]; rewrite skipn_cons.
  - injection Hj as ->. cbn. rewrite drop_0.
    rewrite Nat.mod_small; [by rewrite Hy|].
    apply Nat.Div0.div_lt_upper_bound. lia.
  - change (pools !! j = Some pool) in Hj.
    change ((y :: t) !! S j) with (t !! j).
    rewrite (IH _ _ Ht _ _ Hj).
    assert ((length <$> pools) !! j = Some (length pool)) as Hs
      by by rewrite list_lookup_fmap, Hj.
    apply prod_lookup in Hs as (a & Ha). rewrite Ha.
    rewrite <- fmap_drop. by rewrite digit_mod.
Qed.

End product.

Section enumeration.

Lemma dimspace_of_declare (d : discrete_dimension) :
  well_formed d → dimspace_of (declare d) = Ok (values_of d).
Proof.
  destruct d as [low high|values]; cbn.
  - intros _. do 3 f_equal. lia.
  - intros [Hne _]. by destruct values.
Qed.

Lemma mapM_dimspace_of (ds : list discrete_dimension) :
  Forall well_formed ds →
  mapM dimspace_of (declare <$> ds) = Ok (values_of <$> ds).
Proof.
  induction 1 as [|d ds Hd _ IH]; [done|].
  rewrite fmap_cons. cbn [mapM] in *.
  rewrite (dimspace_of_declare _ Hd). cbn. by rewrite IH.
Qed.

Lemma length_values_of (d : discrete_dimension) :
  length (values_of d) = size d.
Proof.
  destruct d; cbn; rewrite length_fmap; [|done]. by rewrite length_seqZ.
Qed.

Lemma lookup_values_of (d : discrete_dimension) i :
  i < size d → values_of d !! i = Some (value_at d i).
Proof.
  destruct d as [low high|values]; cbn; intros Hi; rewrite list_lookup_fmap.
  - rewrite lookup_seqZ_lt by lia. done.
  - destruct (lookup_lt_is_Some_2 values i Hi) as [x Hx].
    rewrite Hx. cbn. by rewrite (nth_lookup_Some _ _ _ _ Hx).
Qed.

Lemma NoDup_values_of (d : discrete_dimension) :
  well_formed d → NoDup (values_of d).
Proof.
  destruct d as [low high|values]; cbn.
  - intros _. apply NoDup_fmap_2; [|apply NoDup_seqZ]. intros ?? [=]. done.
  - intros [_ Hnd]. apply NoDup_fmap_2; [|done]. intros ?? [=]. done.
Qed.

Lemma fmap_length_values_of (ds : list discrete_dimension) :
  length <$> (values_of <$> ds) = size <$> ds.
Proof.
  rewrite <- list_fmap_compose. apply list_fmap_ext.
  intros _ d _. apply length_values_of.
Qed.

Lemma volume_pos_size (ds : list discrete_dimension) j d :
  ds !! j = Some d → 0 < volume ds → 0 < size d.
Proof.
  intros Hj Hv. unfold volume in Hv.
  assert ((size <$> ds) !! j = Some (size d)) as Hs
    by (rewrite list_lookup_fmap; by rewrite Hj).
  apply prod_lookup in Hs as (a & Ha). rewrite Ha in Hv. nia.
Qed.

End enumeration.

(** C3: for a totally discrete space of dimensions [d1..dn] with sizes
    [s1..sn], [_calculate_discrete_space] returns exactly [s1*...*sn] points,
    pairwise distinct and each of length [n], in the order of the Cartesian
    product over the dimensions as declared, the last dimension varying
    fastest: the coordinate [j] of the point of index [k] is the value of
    index [(k / (s_(j+1) * ... * s_n)) mod s_j] of dimension [j]. *)
Theorem calculate_discrete_space_product (ds : list discrete_dimension) :
  Forall well_formed ds →
  ∃ pts,
    _calculate_discrete_space (declare <$> ds) = Ok pts
    ∧ length pts = volume ds
    ∧ NoDup pts
    ∧ ∀ k p, pts !! k = Some p →
        ∃ l, obj_items p = Ok l ∧ length l = length ds
          ∧ ∀ j d, ds !! j = Some d →
              l !! j
              = Some (value_at d ((k / volume (drop (S j) ds)) mod size d)).
Proof.
  intros Hwf. unfold _calculate_discrete_space.
  rewrite (mapM_dimspace_of _ Hwf). cbn [mbind result_bind].
  rewrite length_fmap.
  destruct (Nat.eqb_spec (length ds) 1) as [Hlen|Hlen].
  - destruct ds as [|d [|? ?]]; try done. cbn [fmap list_fmap mbind result_bind].
    apply Forall_inv in Hwf.
    eexists. split; [reflexivity|]. split_and!.
    + rewrite length_fmap, length_values_of. unfold volume, prod. cbn. lia.
    + apply NoDup_fmap_2; [|by apply NoDup_values_of]. intros ?? [=]. done.
    + intros k p Hk. rewrite list_lookup_fmap in Hk.
      destruct (values_of d !! k) as [v|] eqn:Hv; [|done].
      injection Hk as <-. exists [v]. split; [done|]. split; [done|].
      intros [|j] d' Hj; [|done]. injection Hj as <-.
      pose proof (lookup_lt_Some _ _ _ Hv) as Hlt.
      rewrite length_values_of in Hlt.
      rewrite lookup_values_of in Hv by done. injection Hv as <-.
      change (volume (drop 1 [d])) with 1. rewrite Nat.div_1_r.
      by rewrite Nat.mod_small.
  - rewrite itertools_product_rec.
    eexists. split; [reflexivity|]. split_and!.
    + rewrite length_fmap, length_product_rec, fmap_length_values_of. done.
    + apply NoDup_fmap_2; [intros ?? [=]; done|].
      apply NoDup_product_rec, Forall_fmap.
      eapply Forall_impl; [exact Hwf|]. intros d Hd. by apply NoDup_values_of.
    + intros k p Hk. rewrite list_lookup_fmap in Hk.
      destruct (product_rec (values_of <$> ds) !! k) as [l|] eqn:Hl; [|done].
      injection Hk as <-. exists l. split; [done|]. split.
      { pose proof (product_rec_lengths (values_of <$> ds)) as Hall.
        rewrite Forall_forall in Hall.
        rewrite (Hall l) by (by eapply list_elem_of_lookup_2).
        by rewrite length_fmap. }
      intros j d Hj.
      pose proof (lookup_lt_Some _ _ _ Hl) as Hlt.
      rewrite length_product_rec, fmap_length_values_of in Hlt.
      rewrite (lookup_product_rec _ _ _ Hl j (values_of d))
        by (rewrite list_lookup_fmap; by rewrite Hj).
      rewrite <- fmap_drop, fmap_length_values_of, length_values_of.
      apply lookup_values_of, Nat.mod_upper_bound.
      assert (0 < size d); [|lia].
      eapply volume_pos_size; [done|]. unfold volume. lia.
Qed.

(** A space of three dimensions: a range, two labels, a range. *)
Lemma calculate_discrete_space_product_witness :
  ∃ pts,
    _calculate_discrete_space
      (declare <$> [IntRange 1 2; Labels ["red"; "blue"]%string; IntRange 0 2])
    = Ok pts
    ∧ length pts = 12
    ∧ pts !! 7 = Some (PTuple [VInt 2; VStr "red"; VInt 1]).
Proof.
  destruct (calculate_discrete_space_product
              [IntRange 1 2; Labels ["red"; "blue"]%string; IntRange 0 2])
    as (pts & Hpts & Hlen & _ & _).
  - apply (bool_decide_unpack _). vm_compute. exact I.
  - exists pts. split; [done|]. split; [done|].
    vm_compute in Hpts. injection Hpts as <-. reflexivity.
Defined.

(** ** Finiteness of the space *)

(** C4: a range with an integer lower bound and a float upper bound is not
    discrete, yet [_calculate_discrete_space] does not raise its ValueError
    ("the dimension is a float") on it: its test looks at the lower bound
    only, and the call fails in [range] with a TypeError. *)
Theorem calculate_discrete_space_float_upper (low : Z) (high : float) :
  _is_discrete [[VInt low; VFloat high]] = Ok false
  ∧ _calculate_discrete_space [[VInt low; VFloat high]] = Raise TypeError.
Proof. split; reflexivity. Qed.

Example calculate_discrete_space_float_lower :
  _calculate_discrete_space [[VFloat 1.5; VInt 3]] = Raise ValueError.
Proof. reflexivity. Qed.

(** ** Duplicate check *)

Section dupe_check.

Lemma tuple_not_in_lists (t : list value) (vals : list value) :
  py_in (PTuple t) ((fun x => PList [x]) <$> vals) = false.
Proof. induction vals as [|v vals IH]; [done|]. cbn. exact IH. Qed.

(** In a space of one dimension the points are lists and the history is
    looked up as tuples: no evaluated point is ever removed. *)
Lemma dupe_visit_single_dimension (vals : list value) (c : collection) :
  Forall (fun d => ∃ l, d !! "x" = Some (PList l)) c →
  foldM dupe_visit ((fun x => PList [x]) <$> vals) c
  = Ok ((fun x => PList [x]) <$> vals).
Proof.
  induction 1 as [|d c [l Hl] _ IH]; [done|].
  cbn [foldM].
  assert (dupe_visit ((fun x => PList [x]) <$> vals) d
          = Ok ((fun x => PList [x]) <$> vals)) as ->; [|exact IH].
  unfold dupe_visit, doc_get. rewrite Hl. cbn.
  by rewrite tuple_not_in_lists.
Qed.

End dupe_check.

(** C1: the space [(1,1)] has the single point 1; with the trial x = [1]
    in the collection, [_dupe_check] raises no error and returns [1], the
    evaluated point, whatever the random draw. *)
Theorem dupe_check_single_point_space (rnd : nat) :
  _calculate_discrete_space [[VInt 1; VInt 1]] = Ok [PList [VInt 1]]
  ∧ _dupe_check rnd [trial [VInt 1] 0 []] (PList [VInt 1]) [[VInt 1; VInt 1]]
    = Ok (PList [VInt 1]).
Proof. split; vm_compute; reflexivity. Qed.

(** C2: space [(1,5)], the firework evaluated x = [2], duplicate check on.
    Whatever candidate the predictor suggests, the iteration stores and hands
    to the workflow creator the point [2] that was just evaluated: the
    duplicate check is given [x], not the candidate. *)
Theorem run_task_ignores_candidate (cand : list value) (rnd : nat) :
  run_task (suggest (PList cand)) no_custom
    (loop_task [PTuple [VInt 1; VInt 5]] (Some true) None)
    (evaluated [VInt 2] 7) rnd []
  = ([ <[ "x_new" := PList [VInt 2] ]>
         (<[ "z_new" := PList (drop 1 cand) ]> (trial [VInt 2] 7 [])) ],
     Ok {| additions := (PList [VInt 2], [], ∅); optimization_id := 0 |}).
Proof.
  vm_compute. reflexivity.
Qed.

Example run_task_returns_duplicate (rnd : nat) :
  (run_task (suggest (PList [VInt 1])) no_custom
     (loop_task [PTuple [VInt 1; VInt 2]] (Some true) None)
     (evaluated [VInt 1] 7) rnd [trial [VInt 1] 4 []]).2
  = Ok {| additions := (PList [VInt 1], [], ∅); optimization_id := 1 |}.
Proof. vm_compute. reflexivity. Qed.

(** ** The argument containers *)

(** C9: a tuple given as [wf_creator_args] does not pass the type check of
    [run_task]: the test is [not isinstance(a, list) or isinstance(a, tuple)],
    so a TypeError is raised before anything is stored. *)
Theorem run_task_rejects_tuple_args {W : Type}
    (skopt : string → predictor_fun)
    (deserialize_predictor : string → result predictor_fun)
    (self : @task W) (spec : fw_spec) (rnd : nat) (c : collection)
    (x y : pyobj) (X_dims : list (list value)) (l : list value) :
  _tw_x spec = Some x →
  _tw_y spec = Some y →
  mapM obj_items (dimensions self) = Ok X_dims →
  wf_creator_args self = Some (ArgObj (PTuple l)) →
  run_task skopt deserialize_predictor self spec rnd c = (c, Raise TypeError).
Proof.
  intros Hx Hy Hdims Hargs. unfold run_task, prepare.
  rewrite Hx, Hy, Hdims, Hargs. reflexivity.
Qed.

Lemma run_task_rejects_tuple_args_witness :
  run_task (suggest (PList [VInt 3])) no_custom
    (loop_task [PTuple [VInt 1; VInt 5]] None
       (Some (ArgObj (PTuple [VInt 10; VInt 20]))))
    (evaluated [VInt 2] 7) 0 []
  = ([], Raise TypeError).
Proof.
  apply (run_task_rejects_tuple_args _ _ _ _ _ _
           (PList [VInt 2]) (Scalar (VInt 7)) [[VInt 1; VInt 5]]
           [VInt 10; VInt 20]); reflexivity.
Defined.

Example run_task_forwards_list_args :
  (run_task (suggest (PList [VInt 3])) no_custom
     (loop_task [PTuple [VInt 1; VInt 5]] None
        (Some (ArgObj (PList [VInt 10; VInt 20]))))
     (evaluated [VInt 2] 7) 0 []).2
  = Ok {| additions := (PList [VInt 3], [VInt 10; VInt 20], ∅);
          optimization_id := 0 |}.
Proof. vm_compute. reflexivity. Qed.

(** ** Inferred dimensions *)

(** C6: one observation with two categorical positions, ["red", "small"].
    Both inferred dimensions are the one list of all labels seen at any
    position: the dimension of position 0 contains "small", which was never
    observed there.  With ["red", "red"] the second position keeps its
    initial pair and so lists "red" twice. *)
Theorem Z_dims_shares_labels :
  _Z_dims [ {[ "z" := PList [VStr "red"; VStr "small"] ]} ]
  = Ok [[VStr "red"; VStr "small"]; [VStr "red"; VStr "small"]]
  ∧ _Z_dims [ {[ "z" := PList [VStr "red"; VStr "red"] ]} ]
    = Ok [[VStr "red"]; [VStr "red"; VStr "red"]].
Proof. split; vm_compute; reflexivity. Qed.

Example Z_dims_scenario_D :
  _Z_dims [ {[ "z" := PList [VStr "red"] ]}; {[ "z" := PList [VStr "blue"] ]};
            {[ "z" := PList [VStr "red"] ]} ]
  = Ok [[VStr "red"; VStr "blue"]].
Proof. vm_compute. reflexivity. Qed.

(** ** The update of a trial *)

Section update_frame.

Lemma bind_ok_inv {A B} (m : result A) (f : A → result B) (b : B) :
  m ≫= f = Ok b → ∃ a, m = Ok a ∧ f a = Ok b.
Proof. destruct m as [a|e]; [|done]. intros H. by exists a. Qed.

(** The '$set' update is a partial merge: it keeps the number of documents,
    every other document, and every field of the document that [spec] does
    not name. *)
Lemma store_update_frame (spec : doc) (id : nat) (c : collection) :
  let c' := (_store spec true (Some id) c).1 in
  length c' = length c
  ∧ (∀ i, i ≠ id → c' !! i = c !! i)
  ∧ (∀ d k, c !! id = Some d → spec !! k = None →
       ∃ d', c' !! id = Some d' ∧ d' !! k = d !! k).
Proof.
  cbn. split_and!.
  - apply length_alter.
  - intros i Hi. by apply list_lookup_alter_ne.
  - intros d k Hd Hk. eexists. split.
    + rewrite list_lookup_alter_eq, Hd. done.
    + rewrite lookup_union_r; [done|]. by rewrite lookup_fmap, Hk.
Qed.





End update_frame.



(** ** The read of the history *)

Section gather.

Lemma gather_visit_complete (acc : list pyobj * list pyobj) (d : doc) :
  well_typed d → complete d →
  gather_visit acc d = Ok (acc.1 ++ [(row_of d).1], acc.2 ++ [(row_of d).2]).
Proof.
  intros [Hax Haz] ([x Hx] & [y Hy] & [z Hz]).
  unfold gather_visit, has_key, doc_get, row_of, array.
  rewrite Hx, Hy, Hz in *.
  rewrite !bool_decide_eq_true_2 by eauto.
  destruct x, z; done.
Qed.

Lemma gather_visit_partial (acc : list pyobj * list pyobj) (d : doc) :
  ¬ complete d → gather_visit acc d = Ok acc.
Proof.
  intros Hn. unfold gather_visit, has_key.
  destruct (bool_decide _ && bool_decide _ && bool_decide _) eqn:Hb; [|done].
  destruct Hn. apply andb_prop in Hb as [Hb Hz].
  apply andb_prop in Hb as [Hx Hy].
  by apply bool_decide_eq_true_1 in Hx, Hy, Hz.
Qed.

Lemma foldM_gather (c : collection) (acc : list pyobj * list pyobj) :
  Forall well_typed c →
  foldM gather_visit acc c
  = Ok (acc.1 ++ (row_of <$> filter complete c).*1,
        acc.2 ++ (row_of <$> filter complete c).*2).
Proof.
  intros Hc. revert acc. induction Hc as [|d c Hd _ IH]; intros acc.
  - cbn. rewrite !app_nil_r. by destruct acc.
  - cbn [foldM]. destruct (decide (complete d)) as [Hcomp|Hcomp].
    + rewrite (gather_visit_complete _ _ Hd Hcomp). cbn [mbind result_bind].
      rewrite IH, filter_cons_True by done. cbn.
      by rewrite <- !app_assoc.
    + rewrite (gather_visit_partial _ _ Hcomp). cbn [mbind result_bind].
      by rewrite IH, filter_cons_False.
Qed.

End gather.

(** C7: the read of the history takes a record if and only if it carries
    all of x, y and z: the rows of [X_tot] and [Y] are those of the complete
    records, in the order of the collection, the other records being skipped
    without an error; and the rows read from the same records stored in
    another order are the same rows, in another order. *)
Theorem gather_reads_complete_records (c : collection) :
  Forall well_typed c →
  ∃ X_tot Y,
    gather c = Ok (X_tot, Y)
    ∧ length X_tot = length Y
    ∧ zip X_tot Y = row_of <$> filter complete c
    ∧ (∀ d, d ∈ filter complete c ↔ d ∈ c ∧ complete d)
    ∧ ∀ c', c' ≡ₚ c →
        ∃ X_tot' Y', gather c' = Ok (X_tot', Y')
                     ∧ zip X_tot' Y' ≡ₚ zip X_tot Y.
Proof.
  intros Hc. unfold gather. rewrite (foldM_gather _ _ Hc). cbn [fst snd app].
  do 2 eexists. split; [reflexivity|]. split_and!.
  - by rewrite !length_fmap.
  - apply zip_fst_snd.
  - intros d. rewrite list_elem_of_filter. tauto.
  - intros c' Hperm.
    assert (Forall well_typed c') as Hc' by by rewrite Hperm.
    rewrite (foldM_gather _ _ Hc'). cbn [fst snd app].
    do 2 eexists. split; [reflexivity|].
    rewrite !zip_fst_snd. by rewrite Hperm.
Qed.

Lemma gather_reads_complete_records_witness :
  gather [ trial [VInt 1] 5 [VStr "a"];
           {[ "x" := PList [VInt 2]; "y" := Scalar (VInt 6) ]};
           trial [VInt 3] 7 [VStr "b"] ]
  = Ok ([PList [VInt 1; VStr "a"]; PList [VInt 3; VStr "b"]],
        [Scalar (VInt 5); Scalar (VInt 7)]).
Proof.
  destruct (gather_reads_complete_records
              [ trial [VInt 1] 5 [VStr "a"];
                {[ "x" := PList [VInt 2]; "y" := Scalar (VInt 6) ]};
                trial [VInt 3] 7 [VStr "b"] ])
    as (X_tot & Y & Hg & _).
  - repeat constructor; vm_compute; exact I.
  - rewrite Hg. vm_compute in Hg. injection Hg as <- <-. reflexivity.
Defined.

(** ** The queries of the database utility *)

Section queries.

Implicit Types (var : string) (d : document) (c : list document).

Lemma collect_found var (acc : list value) d v :
  two_sided d → found var d = Some v → collect var acc d = Ok (acc ++ [v]).
Proof.
  intros [[inp Hi] [out Ho]]. unfold found, collect, side.
  rewrite Hi, Ho. cbn. destruct (inp !! var); [by intros [= ->]|].
  by intros ->.
Qed.

Lemma collect_missing var (acc : list value) d :
  two_sided d → found var d = None → collect var acc d = Raise KeyError.
Proof.
  intros [[inp Hi] [out Ho]]. unfold found, collect, side.
  rewrite Hi, Ho. cbn. destruct (inp !! var); [done|]. by intros ->.
Qed.

Lemma foldM_collect_all var c (acc : list value) :
  Forall two_sided c → Forall (carries var) c →
  foldM (collect var) acc c = Ok (acc ++ omap (found var) c).
Proof.
  intros Hc Hall. revert acc.
  induction Hc as [|d c Hd _ IH]; intros acc.
  - cbn. by rewrite app_nil_r.
  - apply Forall_cons in Hall as [[v Hv] Hall]. cbn [foldM omap list_omap].
    rewrite (collect_found _ _ _ _ Hd Hv), Hv. cbn [mbind result_bind].
    rewrite (IH Hall). by rewrite <- app_assoc.
Qed.

Lemma foldM_collect_missing var c (acc : list value) :
  Forall two_sided c → Exists (fun d => ¬ carries var d) c →
  foldM (collect var) acc c = Raise KeyError.
Proof.
  intros Hc Hex. revert acc.
  induction Hc as [|d c Hd _ IH]; intros acc; [by inversion Hex|].
  cbn [foldM]. destruct (found var d) as [v|] eqn:Hv.
  - rewrite (collect_found _ _ _ _ Hd Hv). cbn [mbind result_bind].
    apply IH. inversion Hex as [?? Hn|]; subst; [|done].
    destruct Hn. unfold carries. by rewrite Hv.
  - by rewrite (collect_missing _ _ _ Hd Hv).
Qed.

Lemma carries_cases var c :
  Forall (carries var) c ∨ Exists (fun d => ¬ carries var d) c.
Proof.
  destruct (decide (Forall (carries var) c)) as [H|H]; [by left|right].
  by apply not_Forall_Exists in H; [|apply _].
Qed.

Lemma carries_exclusive var c :
  Forall (carries var) c → Exists (fun d => ¬ carries var d) c → False.
Proof.
  intros Hall Hex. apply Exists_exists in Hex as (d & Hd & Hn).
  rewrite Forall_forall in Hall. by apply Hn, Hall.
Qed.

(** None of the arithmetic of [get_avg] raises a KeyError. *)

Lemma no_key_error_bind {A B} (m : result A) (f : A → result B) :
  no_key_error m → (∀ a, no_key_error (f a)) → no_key_error (m ≫= f).
Proof.
  destruct m as [a|e]; [intros _ H; apply H|].
  intros H _ [= ->]. by apply H.
Qed.

Lemma no_key_error_fmap {A B} (m : result A) (f : A → B) :
  no_key_error m → no_key_error (f <$> m).
Proof. destruct m; [done|]. intros H [= ->]. by apply H. Qed.

Lemma no_key_error_float_of_Z n : no_key_error (float_of_Z n).
Proof. unfold float_of_Z. by destruct (PrimFloat.is_infinity _). Qed.

Lemma no_key_error_arith fz ff a b : no_key_error (arith fz ff a b).
Proof.
  destruct a, b; cbn; try done;
    (apply no_key_error_bind; [apply no_key_error_float_of_Z|done]).
Qed.

Lemma no_key_error_add a b : no_key_error (py_add a b).
Proof. destruct a, b; try apply no_key_error_arith; done. Qed.

Lemma no_key_error_sum (l : list value) a : no_key_error (foldM py_add a l).
Proof.
  revert a. induction l as [|b l IH]; intros a; [done|].
  cbn [foldM]. apply no_key_error_bind; [apply no_key_error_add|done].
Qed.

Lemma no_key_error_div a b : no_key_error (py_div a b).
Proof.
  destruct a, b; cbn; try done.
  - by case_match.
  - apply no_key_error_bind; [apply no_key_error_float_of_Z|].
    intros ?. by case_match.
  - apply no_key_error_bind; [apply no_key_error_float_of_Z|].
    intros ?. by case_match.
  - by case_match.
Qed.

Lemma no_key_error_int a : no_key_error (py_int a).
Proof.
  destruct a; cbn; try done. apply no_key_error_fmap.
  unfold Z_of_float. by destruct (Prim2SF f).
Qed.

Lemma no_key_error_float a : no_key_error (py_float a).
Proof.
  destruct a; cbn; try done. apply no_key_error_fmap, no_key_error_float_of_Z.
Qed.

Lemma track_ok (m : string) (v : value) (inp : gmap string value) (st : optima) :
  ∃ st', track m (Ok ()) v inp st = Ok st'.
Proof. unfold track. repeat case_match; eauto. Qed.

Lemma track_cases (m : string) (again : result unit) (v : value)
    (inp : gmap string value) (st : optima) :
  again = Ok () ∨ again = Raise KeyError →
  (∃ st', track m again v inp st = Ok st')
  ∨ track m again v inp st = Raise KeyError.
Proof.
  intros [->| ->]; [left; apply track_ok|].
  unfold track. repeat case_match; eauto.
Qed.

Lemma optima_visit_found var (m : string) (again : result unit) d v
    (st : optima) :
  two_sided d → found var d = Some v →
  ∃ inp, optima_visit var m again st d = track m again v inp st.
Proof.
  intros [[inp Hi] [out Ho]]. unfold found, optima_visit, side.
  rewrite Hi, Ho. cbn. destruct (inp !! var); [intros [= ->]|intros ->];
    by exists inp.
Qed.

Lemma optima_visit_missing var (m : string) (again : result unit) d
    (st : optima) :
  two_sided d → found var d = None →
  optima_visit var m again st d = Raise KeyError.
Proof.
  intros [[inp Hi] [out Ho]]. unfold found, optima_visit, side.
  rewrite Hi, Ho. cbn. destruct (inp !! var); [done|]. by intros ->.
Qed.

Lemma foldM_optima_all var (m : string) c (st : optima) :
  Forall two_sided c → Forall (carries var) c →
  ∃ st', foldM (optima_visit var m (Ok ())) st c = Ok st'.
Proof.
  intros Hc Hall. revert st.
  induction Hc as [|d c Hd _ IH]; intros st; [by eexists|].
  apply Forall_cons in Hall as [[v Hv] Hall]. cbn [foldM].
  destruct (optima_visit_found var m (Ok ()) d v st Hd Hv) as [inp ->].
  destruct (track_ok m v inp st) as [st' ->]. apply (IH Hall).
Qed.

Lemma foldM_optima_missing var (m : string) (again : result unit) c
    (st : optima) :
  again = Ok () ∨ again = Raise KeyError →
  Forall two_sided c → Exists (fun d => ¬ carries var d) c →
  foldM (optima_visit var m again) st c = Raise KeyError.
Proof.
  intros Hagain Hc Hex. revert st.
  induction Hc as [|d c Hd _ IH]; intros st; [by inversion Hex|].
  cbn [foldM]. destruct (found var d) as [v|] eqn:Hv.
  - destruct (optima_visit_found var m again d v st Hd Hv) as [inp ->].
    destruct (track_cases m again v inp st Hagain) as [[st' ->]| ->]; [|done].
    apply IH. inversion Hex as [?? Hn|]; subst; [|done].
    destruct Hn. unfold carries. by rewrite Hv.
  - by rewrite (optima_visit_missing _ _ _ _ _ Hd Hv).
Qed.

Lemma optima_scan_all var (m : string) c :
  Forall two_sided c → Forall (carries var) c →
  is_ok (optima_scan var m (Ok ()) c) = true.
Proof.
  intros Hc Hall. unfold optima_scan.
  destruct (foldM_optima_all var m c
              {| o_min := None; o_max := None; optima_params := ∅ |} Hc Hall)
    as [st' ->].
  cbn. by repeat case_match.
Qed.

Lemma optima_scan_missing var (m : string) (again : result unit) c :
  again = Ok () ∨ again = Raise KeyError →
  Forall two_sided c → Exists (fun d => ¬ carries var d) c →
  optima_scan var m again c = Raise KeyError.
Proof.
  intros Hagain Hc Hex. unfold optima_scan.
  by rewrite (foldM_optima_missing var m again c _ Hagain Hc Hex).
Qed.

Lemma iff_by_cases (P Q R : Prop) :
  Q ∨ R → (Q → ¬ P) → (R → P) → (Q → R → False) → (P ↔ R).
Proof. tauto. Qed.

End queries.

(** C8: the queries do not return the aggregate over the records that carry
    the key.  Here every record has both sides and the first one carries the
    key "a", and yet [get_param], [get_avg] and [get_optima] fail with a
    KeyError, whose message says that the key was not found anywhere in the
    collection: the second record carries it on neither side. *)
Lemma queries_fail_on_one_record_without_key :
  let c := [record [("a", VInt 1)] []; record [("b", VInt 2)] []]%string in
  Forall two_sided c
  ∧ Exists (carries "a") c
  ∧ get_param "a" c = Raise KeyError
  ∧ get_avg "a" c = Raise KeyError
  ∧ get_optima "a" "min" c = Raise KeyError.
Proof.
  cbn zeta. split_and!.
  - repeat constructor; vm_compute; by eexists.
  - apply Exists_cons_hd. vm_compute. by eexists.
  - vm_compute. reflexivity.
  - vm_compute. reflexivity.
  - vm_compute. reflexivity.
Qed.

(** What the loops do in general, on records that have both sides: each
    query looks for the key on the input side of a record, then on its output
    side, and fails with a KeyError exactly when some record carries the key
    on neither side.  When every record carries it, [get_param] returns the
    values found, one per record and in order, and [get_optima] returns. *)
Theorem queries_key_error (var : string) (c : list (gmap string (gmap string value))) :
  Forall two_sided c →
  (get_param var c = Raise KeyError ↔ Exists (fun d => ¬ carries var d) c)
  ∧ (get_avg var c = Raise KeyError ↔ Exists (fun d => ¬ carries var d) c)
  ∧ (∀ m, get_optima var m c = Raise KeyError
          ↔ Exists (fun d => ¬ carries var d) c)
  ∧ (Forall (carries var) c →
       get_param var c = Ok (omap (found var) c)
       ∧ length (omap (found var) c) = length c
       ∧ ∀ m, is_ok (get_optima var m c) = true).
Proof.
  intros Hc.
  assert (Forall (carries var) c →
          optima_scan var "min" (Ok ()) c ≫= (fun _ => Ok ()) = Ok ())
    as Hagain_ok.
  { intros Hall. pose proof (optima_scan_all var "min" c Hc Hall) as Hok.
    by destruct (optima_scan _ _ _ _). }
  split_and!.
  - apply iff_by_cases with (Q := Forall (carries var) c).
    + apply carries_cases.
    + intros Hall. unfold get_param. by rewrite foldM_collect_all.
    + intros Hex. by apply foldM_collect_missing.
    + apply carries_exclusive.
  - apply iff_by_cases with (Q := Forall (carries var) c).
    + apply carries_cases.
    + intros Hall. unfold get_avg. rewrite foldM_collect_all by done.
      cbn [mbind result_bind app].
      apply no_key_error_bind.
      { unfold getitem. by case_match. }
      intros first.
      destruct (type_is_int first); [|destruct (type_is_float first)];
        [| |done].
      * apply no_key_error_bind; [apply no_key_error_sum|]. intros s.
        apply no_key_error_bind; [apply no_key_error_div|]. intros q.
        apply no_key_error_int.
      * apply no_key_error_bind; [apply no_key_error_sum|]. intros s.
        apply no_key_error_bind; [apply no_key_error_div|]. intros q.
        apply no_key_error_float.
    + intros Hex. unfold get_avg. by rewrite foldM_collect_missing.
    + apply carries_exclusive.
  - intros m. apply iff_by_cases with (Q := Forall (carries var) c).
    + apply carries_cases.
    + intros Hall. unfold get_optima. rewrite (Hagain_ok Hall).
      pose proof (optima_scan_all var m c Hc Hall) as Hok.
      by destruct (optima_scan var m (Ok ()) c).
    + intros Hex. unfold get_optima. apply optima_scan_missing; [|done..].
      right. by rewrite (optima_scan_missing var "min" (Ok ()) c) by auto.
    + apply carries_exclusive.
  - intros Hall. split_and!.
    + unfold get_param. by rewrite foldM_collect_all.
    + clear Hc Hagain_ok. induction Hall as [|d c [v Hv] _ IH]; [done|].
      cbn. rewrite Hv. cbn. by rewrite IH.
    + intros m. unfold get_optima. rewrite (Hagain_ok Hall).
      by apply optima_scan_all.
Qed.

Lemma queries_key_error_witness :
  get_param "a" [record [("a", VInt 1)] []; record [] [("a", VInt 4)]]%string
  = Ok [VInt 1; VInt 4].
Proof.
  destruct (queries_key_error "a"
              [record [("a", VInt 1)] []; record [] [("a", VInt 4)]]%string)
    as (_ & _ & _ & Hall).
  - repeat constructor; vm_compute; by eexists.
  - destruct Hall as (Hp & _).
    + repeat constructor; vm_compute; by eexists.
    + rewrite Hp. vm_compute. reflexivity.
Defined.

(** ** Inference from a single observation *)

Section single_observation.

Implicit Types (st : zstate) (z : list value).

Lemma read_item_own st i k (l : list value) :
  zs_dims st !! i = Some (Own l) → read_item st i k = getitem l k.
Proof. intros H. unfold read_item. by rewrite H. Qed.

Lemma write_item_own st i k (l : list value) v :
  zs_dims st !! i = Some (Own l) →
  write_item st i k v
  = {| zs_dims := <[i := Own (<[k := v]> l)]> (zs_dims st);
       zs_cat := zs_cat st |}.
Proof. intros H. unfold write_item. by rewrite H. Qed.

Lemma write_item_same st i k (l : list value) v :
  zs_dims st !! i = Some (Own l) → l !! k = Some v →
  write_item st i k v = st.
Proof.
  intros H Hk. rewrite (write_item_own _ _ _ _ _ H).
  rewrite (list_insert_id l) by done. rewrite list_insert_id by done.
  by destruct st.
Qed.

Lemma is_str_type_in (v : value) :
  type_in v dtypes.others = bool_decide (is_str v).
Proof. by destruct v. Qed.

Lemma not_str_numbers (v : value) :
  ¬ is_str v → type_in v dtypes.numbers = true.
Proof. destruct v; [done|done|]. by intros []. Qed.

Lemma str_not_numbers (v : value) :
  is_str v → type_in v dtypes.numbers = false.
Proof. by destruct v. Qed.

(** The first loop leaves the pair of a number as it is: the observation is
    the value the pair was made of. *)
Lemma observe_single z st i k :
  i < length z → single_obs z k st → k = 0 →
  ∃ st', observe (PList z) st i = Ok st' ∧ single_obs z k st'.
Proof.
  intros Hi (Hlen & Hcat & Hpos) ->.
  destruct (lookup_lt_is_Some_2 z i Hi) as [v Hv].
  unfold observe, obj_getitem, getitem. cbn [obj_items mbind result_bind].
  rewrite Hv. cbn [mbind result_bind]. rewrite is_str_type_in.
  destruct (Hpos i v Hv) as [[Hs Hcell]|[Hs Hcell]].
  - rewrite bool_decide_eq_true_2 by done.
    destruct (negb _); [|by eexists; split; [done|]].
    eexists. split; [done|]. split_and!; cbn.
    + by rewrite length_insert.
    + apply Forall_app. split; [done|]. by repeat constructor.
    + intros j w Hw. destruct (decide (j = i)) as [->|Hne].
      * left. rewrite Hv in Hw. injection Hw as <-. split; [done|]. right.
        rewrite list_lookup_insert_eq by lia. split; [done|].
        by destruct (zs_cat st).
      * rewrite list_lookup_insert_ne by done.
        destruct (Hpos j w Hw) as [[Hs' [Ho|[Hc Hne']]]|Hnum]; [| |by right].
        -- left. split; [done|]. by left.
        -- left. split; [done|]. right. split; [done|].
           by destruct (zs_cat st).
  - rewrite bool_decide_eq_false_2 by done. cbn in Hcell.
    rewrite !(read_item_own _ _ _ _ Hcell). cbn.
    exists st. split; [|done].
    destruct (py_lt v v); [by rewrite (write_item_same _ _ _ _ _ Hcell)|].
    unfold py_gt. destruct (py_lt v v);
      [by rewrite (write_item_same _ _ _ _ _ Hcell)|done].
Qed.

Lemma foldM_observe_single z st (l : list nat) :
  Forall (fun i => i < length z) l → single_obs z 0 st →
  ∃ st', foldM (observe (PList z)) st l = Ok st' ∧ single_obs z 0 st'.
Proof.
  intros Hl. revert st. induction Hl as [|i l Hi _ IH]; intros st Hst.
  - by exists st.
  - destruct (observe_single z st i 0 Hi Hst eq_refl) as (st1 & Hobs & Hst1).
    cbn [foldM]. rewrite Hobs. apply (IH _ Hst1).
Qed.

Lemma single_obs_initial z :
  single_obs z 0 {| zs_dims := (fun v => Own [v; v]) <$> z; zs_cat := [] |}.
Proof.
  split_and!; cbn.
  - by rewrite length_fmap.
  - constructor.
  - intros i v Hv. rewrite list_lookup_fmap, Hv. cbn.
    destruct (decide (is_str v)); [left|right]; eauto.
Qed.

Lemma lookup_after_write st i k (l : list value) v :
  i < length (zs_dims st) → zs_dims st !! i = Some (Own l) →
  zs_dims (write_item st i k v) !! i = Some (Own (<[k := v]> l)).
Proof.
  intros Hi H. rewrite (write_item_own _ _ _ _ _ H). cbn.
  by rewrite list_lookup_insert_eq.
Qed.

Lemma length_after_write st i k v :
  length (zs_dims (write_item st i k v)) = length (zs_dims st).
Proof.
  unfold write_item. destruct (zs_dims st !! i) as [[l|]|]; cbn; [|done..].
  by rewrite length_insert.
Qed.

Lemma write_write st i (l : list value) a b :
  zs_dims st !! i = Some (Own l) → i < length (zs_dims st) →
  write_item (write_item st i 0 a) i 1 b
  = {| zs_dims := <[i := Own (<[1 := b]> (<[0 := a]> l))]> (zs_dims st);
       zs_cat := zs_cat st |}.
Proof.
  intros H Hi.
  rewrite (write_item_own _ _ _ _ _ (lookup_after_write _ _ 0 _ a Hi H)).
  rewrite (write_item_own _ _ _ _ _ H). cbn.
  by rewrite list_insert_insert_eq.
Qed.

(** The widening of the pair of a number. *)
Lemma widen_number st i v :
  i < length (zs_dims st) → zs_dims st !! i = Some (Own [v; v]) →
  ¬ is_str v →
  widen st i
  = Ok {| zs_dims := <[i := Own (widened v)]> (zs_dims st);
          zs_cat := zs_cat st |}.
Proof.
  intros Hi H Hnum. unfold widen.
  rewrite (read_item_own _ _ _ _ H). cbn [getitem lookup list_lookup mbind result_bind].
  rewrite (not_str_numbers _ Hnum).
  pose proof (fun a => lookup_after_write st i 0 _ a Hi H) as H0.
  destruct v as [n|f|s]; [| |by destruct Hnum].
  - cbn [type_in type_of existsb pytype_eqb dtypes.floats dtypes.ints orb
         py_sub py_add arith mbind result_bind].
    rewrite (read_item_own _ _ _ _ (H0 _)).
    cbn [getitem lookup list_lookup list_insert insert mbind result_bind
         py_add arith].
    rewrite (write_write _ _ _ _ _ H Hi).
    unfold read_item. cbn [zs_dims zs_cat]. rewrite list_lookup_insert_eq by done.
    cbn. unfold py_gt. cbn.
    destruct (Z.ltb_spec (n + 1) (n - 1)); [lia|done].
  - cbn [type_in type_of existsb pytype_eqb dtypes.floats dtypes.ints orb
         py_sub py_add py_mul arith mbind result_bind].
    rewrite (read_item_own _ _ _ _ (H0 _)).
    cbn [getitem lookup list_lookup list_insert insert mbind result_bind
         py_add py_mul arith].
    rewrite (write_write _ _ _ _ _ H Hi).
    unfold read_item. cbn [zs_dims zs_cat]. rewrite list_lookup_insert_eq by done.
    cbn [deref getitem lookup list_lookup list_insert insert mbind result_bind].
    unfold py_gt. cbn [py_lt widened].
    destruct (PrimFloat.ltb _ _); [|done].
    cbn. by rewrite list_insert_insert_eq.
Qed.

(** The widening leaves the list of a label as it is. *)
Lemma widen_label st i (l : list value) v :
  (zs_dims st !! i = Some (Own l) ∨ (zs_dims st !! i = Some Cat ∧ zs_cat st = l)) →
  l !! 0 = Some v → is_str v → widen st i = Ok st.
Proof.
  intros Hcell Hl Hs. unfold widen, read_item, getitem.
  destruct Hcell as [-> | [-> <-]]; cbn [deref]; rewrite Hl;
    cbn [mbind result_bind]; by rewrite (str_not_numbers _ Hs).
Qed.

Lemma widen_single z st k :
  k < length z → single_obs z k st →
  ∃ st', widen st k = Ok st' ∧ single_obs z (S k) st'.
Proof.
  intros Hk (Hlen & Hcat & Hpos).
  destruct (lookup_lt_is_Some_2 z k Hk) as [v Hv].
  assert (∀ i w, z !! i = Some w → i ≠ k →
            bool_decide (i < S k) = bool_decide (i < k)) as Hother.
  { intros i w _ Hne. apply bool_decide_ext. lia. }
  destruct (Hpos k v Hv) as [[Hs Hcell]|[Hs Hcell]].
  - exists st. split.
    + destruct Hcell as [Ho|[Hc Hne]].
      * by apply (widen_label st k [v; v] v); [left| |].
      * destruct (zs_cat st) as [|c0 cat] eqn:Hcat0; [done|].
        apply Forall_cons in Hcat as [Hc0 _].
        apply (widen_label st k (c0 :: cat) c0); [right| |]; by rewrite ?Hcat0.
    + split_and!; [done..|]. intros i w Hw.
      destruct (Hpos i w Hw) as [Hl|[Hn Hd]]; [by left|right].
      split; [done|]. rewrite (Hother i w Hw); [done|].
      intros ->. rewrite Hv in Hw. by injection Hw as <-.
  - rewrite bool_decide_eq_false_2 in Hcell by lia.
    rewrite (widen_number st k v) by (done || lia).
    eexists. split; [done|]. split_and!; cbn.
    + by rewrite length_insert.
    + done.
    + intros i w Hw. destruct (decide (i = k)) as [->|Hne].
      * rewrite Hv in Hw. injection Hw as <-. right. split; [done|].
        rewrite list_lookup_insert_eq by lia.
        by rewrite bool_decide_eq_true_2 by lia.
      * rewrite list_lookup_insert_ne by done.
        rewrite (Hother i w Hw Hne). apply (Hpos i w Hw).
Qed.

Lemma foldM_widen_single z st (n k : nat) :
  k + n = length z → single_obs z k st →
  ∃ st', foldM widen st (seq k n) = Ok st' ∧ single_obs z (length z) st'.
Proof.
  revert k st. induction n as [|n IH]; intros k st Hkn Hst.
  - exists st. split; [done|]. by replace (length z) with k by lia.
  - destruct (widen_single z st k) as (st1 & Hw & Hst1); [lia|done|].
    cbn [seq foldM]. rewrite Hw. apply IH; [lia|done].
Qed.

End single_observation.

(** C5: with exactly one observation [z] in the collection, [_Z_dims]
    returns one dimension per feature; for a float [f] it is
    [f - 0.05*f, f + 0.05*f], the two swapped when the first exceeds the
    second, and for an integer [n] it is [n - 1, n + 1]. *)
Theorem Z_dims_single_observation (d : gmap string pyobj) (z : list value) :
  d !! "z" = Some (PList z) →
  ∃ dims,
    _Z_dims [d] = Ok dims
    ∧ length dims = length z
    ∧ (∀ i f, z !! i = Some (VFloat f) →
         let lo := PrimFloat.sub f (PrimFloat.mul 0.05 f) in
         let hi := PrimFloat.add f (PrimFloat.mul 0.05 f) in
         dims !! i = Some (if PrimFloat.ltb hi lo then [VFloat hi; VFloat lo]
                           else [VFloat lo; VFloat hi]))
    ∧ (∀ i n, z !! i = Some (VInt n) →
         dims !! i = Some [VInt (n - 1); VInt (n + 1)]).
Proof.
  intros Hz. unfold _Z_dims.
  cbn [mapM mbind result_bind mret result_ret]. unfold doc_get. rewrite Hz.
  cbn [mbind result_bind mret result_ret obj_items foldM].
  rewrite length_fmap.
  destruct (foldM_observe_single z _ (seq 0 (length z))
              (proj2 (Forall_seq (fun i => i < length z) 0 (length z))
                 (fun i Hi => proj2 Hi))
              (single_obs_initial z))
    as (st1 & -> & Hst1).
  cbn [mbind result_bind].
  destruct (foldM_widen_single z st1 (length z) 0 eq_refl Hst1)
    as (st2 & -> & (Hlen & _ & Hpos)).
  cbn [mbind result_bind].
  eexists. split; [reflexivity|]. split_and!.
  - by rewrite length_fmap.
  - intros i f Hi. cbn zeta. rewrite list_lookup_fmap.
    destruct (Hpos i _ Hi) as [[Hs _]|[_ ->]]; [done|].
    rewrite bool_decide_eq_true_2 by (by eapply lookup_lt_Some).
    cbn. by destruct (PrimFloat.ltb _ _).
  - intros i n Hi. rewrite list_lookup_fmap.
    destruct (Hpos i _ Hi) as [[Hs _]|[_ ->]]; [done|].
    by rewrite bool_decide_eq_true_2 by (by eapply lookup_lt_Some).
Qed.

(** One observation of a negative float, an integer and a label. *)
Lemma Z_dims_single_observation_witness :
  _Z_dims [ {[ "z" := PList [VFloat (-2); VInt 3; VStr "red"] ]} ]
  = Ok [ [VFloat (-2.1); VFloat (-1.9)]; [VInt 2; VInt 4]; [VStr "red"] ].
Proof.
  destruct (Z_dims_single_observation
              {[ "z" := PList [VFloat (-2); VInt 3; VStr "red"] ]}
              [VFloat (-2); VInt 3; VStr "red"])
    as (dims & Hdims & _).
  - reflexivity.
  - rewrite Hdims. vm_compute in Hdims. injection Hdims as <-.
    vm_compute. reflexivity.
Defined.

(** The widening loop also runs when there are several observations:
    [check] and [dims] are one list, so [dims == check] always holds. *)
Example Z_dims_two_observations :
  _Z_dims [ {[ "z" := PList [VInt 3] ]}; {[ "z" := PList [VInt 7] ]} ]
  = Ok [[VInt 2; VInt 8]].
Proof. vm_compute. reflexivity. Qed.

(** ** Checks of the embedding on the examples of the source *)

(** The example of the docstring of [_calculate_discrete_space]. *)
Example calculate_discrete_space_docstring :
  _calculate_discrete_space [[VInt 1; VInt 2]; [VStr "red"; VStr "blue"]]
  = Ok [ PTuple [VInt 1; VStr "red"]; PTuple [VInt 1; VStr "blue"];
         PTuple [VInt 2; VStr "red"]; PTuple [VInt 2; VStr "blue"] ].
Proof. vm_compute. reflexivity. Qed.

Example calculate_discrete_space_one_dimension :
  _calculate_discrete_space [[VInt 1; VInt 3]]
  = Ok [PList [VInt 1]; PList [VInt 2]; PList [VInt 3]].
Proof. vm_compute. reflexivity. Qed.

(** In two dimensions the history is removed and the draw is among the
    points that remain. *)
Example dupe_check_two_dimensions :
  _dupe_check 0 [trial [VInt 1; VInt 1] 0 []] (PList [VInt 1; VInt 1])
    [[VInt 1; VInt 2]; [VInt 1; VInt 2]]
  = Ok (PTuple [VInt 1; VInt 2]).
Proof. vm_compute. reflexivity. Qed.

Example python_numbers :
  float_of_Z 3 = Ok 3%float
  ∧ float_of_Z (2 ^ 1024) = Raise OverflowError
  ∧ py_lt (VInt 1) (VFloat 1.5) = true
  ∧ py_lt (VFloat (-1.5)) (VInt (-1)) = true
  ∧ py_eq (VInt 2) (VFloat 2) = true
  ∧ py_lt (VInt 5) (VStr "a") = true
  ∧ py_add (VFloat 0.5) (VInt 1) = Ok (VFloat 1.5)
  ∧ py_div (VInt 7) (VInt 2) = Ok (VInt 3)
  ∧ py_mul (VInt (-1)) (VStr "ab") = Ok (VStr "").
Proof. repeat split; vm_compute; reflexivity. Qed.

Example get_avg_examples :
  get_avg "a" [record [("a", VInt 1)] []; record [] [("a", VInt 4)]]%string
  = Ok (VInt 2)
  ∧ get_avg "a" [record [("a", VFloat 1)] []; record [] [("a", VInt 4)]]%string
    = Ok (VFloat 2.5)
  ∧ get_avg "a" [] = Raise IndexError
  ∧ get_param "a" [] = Ok []
  ∧ get_optima "a" "min" [] = Ok (Some (None, ∅)).
Proof. repeat split; vm_compute; reflexivity. Qed.

(** * Further properties of the code *)

(** ** [_store] *)

(** X2: an update of the document [id] is a merge: the fields the spec
    names take the stored values, every other field of the document stays,
    every other document stays, and the number of documents stays. *)
Theorem store_update_merge (spec : gmap string pyobj) (id : nat)
    (c : collection) (d : gmap string pyobj) :
  c !! id = Some d →
  ∃ d',
    (_store spec true (Some id) c).1 !! id = Some d'
    ∧ length (_store spec true (Some id) c).1 = length c
    ∧ (∀ k o, spec !! k = Some o → d' !! k = Some (to_bson o))
    ∧ (∀ k, spec !! k = None → d' !! k = d !! k)
    ∧ ∀ i, i ≠ id → (_store spec true (Some id) c).1 !! i = c !! i.
Proof.
  intros Hd. exists ((to_bson <$> spec) ∪ d). cbn. split_and!.
  - by rewrite list_lookup_alter_eq, Hd.
  - apply length_alter.
  - intros k o Hk. apply lookup_union_Some_l. by rewrite lookup_fmap, Hk.
  - intros k Hk. apply lookup_union_r. by rewrite lookup_fmap, Hk.
  - intros i Hi. by apply list_lookup_alter_ne.
Qed.

Lemma store_update_merge_witness :
  ∃ d',
    (_store {[ "x_new" := PTuple [VInt 5] ]} true (Some 0)
            [trial [VInt 1] 2 []]).1 !! 0 = Some d'
    ∧ d' !! "x_new" = Some (PList [VInt 5])
    ∧ d' !! "x" = Some (PList [VInt 1]).
Proof.
  destruct (store_update_merge {[ "x_new" := PTuple [VInt 5] ]} 0
              [trial [VInt 1] 2 []] (trial [VInt 1] 2 []) eq_refl)
    as (d' & Hl & _ & Hnew & Hold & _).
  exists d'. split; [exact Hl|]. split.
  - exact (Hnew "x_new" (PTuple [VInt 5]) eq_refl).
  - rewrite (Hold "x" eq_refl). reflexivity.
Defined.

(** X3: an update whose identifier names no document changes nothing, and
    neither does an update without an identifier: there is no upsert. *)
Theorem store_update_no_match (spec : gmap string pyobj) (id : nat)
    (c : collection) :
  length c ≤ id →
  (_store spec true (Some id) c).1 = c
  ∧ (_store spec true None c).1 = c.
Proof.
  intros Hid. split; [|done]. cbn.
  apply stdpp.list_basics.list.list_eq. intros i.
  destruct (decide (i = id)) as [->|Hne].
  - rewrite list_lookup_alter_eq. by rewrite (lookup_ge_None_2 c id).
  - by apply list_lookup_alter_ne.
Qed.

Lemma store_update_no_match_witness :
  (_store {[ "x_new" := PList [VInt 5] ]} true (Some 3)
          [trial [VInt 1] 2 []]).1
  = [trial [VInt 1] 2 []].
Proof.
  apply (store_update_no_match {[ "x_new" := PList [VInt 5] ]} 3
           [trial [VInt 1] 2 []]).
  cbn. lia.
Defined.

(** ** [_is_discrete] and [_calculate_discrete_space] *)

Section discrete_checks.

Lemma mapM_ok_inv {A B} (f : A → result B) (l : list A) (k : list B) :
  mapM f l = Ok k → Forall2 (fun a b => f a = Ok b) l k.
Proof.
  revert k. induction l as [|a l IH]; intros k.
  - intros [= <-]. constructor.
  - cbn [mapM]. intros H.
    apply bind_ok_inv in H as (b & Hb & H).
    apply bind_ok_inv in H as (k' & Hk' & H).
    injection H as <-. constructor; [done|]. by apply IH.
Qed.

Lemma mapM_app_raise {A B} (f : A → result B) (pre post : list A) (a : A) e :
  Forall (fun a => is_ok (f a) = true) pre → f a = Raise e →
  mapM f (pre ++ a :: post) = Raise e.
Proof.
  intros Hpre Ha. induction Hpre as [|b pre Hb _ IH].
  - cbn [app mapM]. by rewrite Ha.
  - cbn [app mapM] in *. destruct (f b); [|done]. cbn. by rewrite IH.
Qed.

Lemma is_discrete_cons (dim : list value) (dims : list (list value)) :
  2 ≤ length dim →
  _is_discrete (dim :: dims)
  = if first_two_discrete dim then _is_discrete dims else Ok false.
Proof.
  destruct dim as [|d0 [|d1 rest]]; cbn [length]; [lia..|]. intros _.
  destruct d0, d1; reflexivity.
Qed.

End discrete_checks.

(** X4: when every dimension has at least two entries, [_is_discrete]
    returns, and it returns True exactly when no dimension has a float among
    its first two entries; the entries after the second are not looked
    at. *)
Theorem is_discrete_first_two (dims : list (list value)) :
  Forall (fun dim => 2 ≤ length dim) dims →
  _is_discrete dims = Ok (forallb first_two_discrete dims).
Proof.
  induction 1 as [|dim dims Hdim _ IH]; [done|].
  rewrite (is_discrete_cons _ _ Hdim). cbn [forallb].
  by destruct (first_two_discrete dim).
Qed.

Lemma is_discrete_first_two_witness :
  _is_discrete [[VInt 1; VInt 5]; [VStr "a"; VStr "b"; VFloat 2.5]] = Ok true
  ∧ _is_discrete [[VInt 1; VInt 5]; [VInt 0; VFloat 2.5]] = Ok false.
Proof.
  split.
  - rewrite (is_discrete_first_two
               [[VInt 1; VInt 5]; [VStr "a"; VStr "b"; VFloat 2.5]]).
    + reflexivity.
    + repeat constructor.
  - rewrite (is_discrete_first_two [[VInt 1; VInt 5]; [VInt 0; VFloat 2.5]]).
    + reflexivity.
    + repeat constructor.
Defined.

(** X5: the only exception [_is_discrete] raises is an IndexError, and it
    raises it only when some dimension has fewer than two entries. *)
Theorem is_discrete_index_error (dims : list (list value)) (e : pyerr) :
  _is_discrete dims = Raise e →
  e = IndexError ∧ Exists (fun dim => length dim < 2) dims.
Proof.
  induction dims as [|dim dims IH]; [done|].
  destruct dim as [|d0 [|d1 rest]].
  - intros [= <-]. split; [done|]. apply Exists_cons_hd. cbn. lia.
  - cbn. destruct (negb _); [done|]. intros [= <-]. split; [done|].
    apply Exists_cons_hd. cbn. lia.
  - rewrite is_discrete_cons by (cbn; lia).
    destruct (first_two_discrete _); [|done].
    intros H. destruct (IH H) as [-> Hex]. split; [done|].
    by apply Exists_cons_tl.
Qed.

Lemma is_discrete_index_error_witness :
  Exists (fun dim : list value => length dim < 2) [[VInt 1; VInt 5]; [VStr "a"]].
Proof.
  apply (is_discrete_index_error [[VInt 1; VInt 5]; [VStr "a"]] IndexError).
  reflexivity.
Defined.

Section enumeration_errors.

Lemma dimspace_of_discrete (dim : list value) :
  2 ≤ length dim → first_two_discrete dim = true →
  if int_then_label dim then dimspace_of dim = Raise TypeError
  else is_ok (dimspace_of dim) = true.
Proof.
  destruct dim as [|d0 [|d1 rest]]; cbn [length]; [lia..|]. intros _.
  destruct d0, d1; done.
Qed.

Lemma mapM_dimspace_of_discrete (dims : list (list value)) :
  Forall (fun dim => 2 ≤ length dim) dims →
  forallb first_two_discrete dims = true →
  if existsb int_then_label dims then mapM dimspace_of dims = Raise TypeError
  else ∃ total, mapM dimspace_of dims = Ok total ∧ length total = length dims.
Proof.
  induction 1 as [|dim dims Hdim _ IH]; [by exists []|].
  cbn [forallb existsb mapM]. intros [Hd Hds]%andb_prop.
  pose proof (dimspace_of_discrete dim Hdim Hd) as Hdim'.
  specialize (IH Hds).
  destruct (int_then_label dim); cbn [orb]; [by rewrite Hdim'|].
  destruct (dimspace_of dim) as [vals|]; [|done]. cbn.
  destruct (existsb int_then_label dims); [by rewrite IH|].
  destruct IH as (total & -> & Hlen). cbn. eexists. split; [done|].
  cbn. by rewrite Hlen.
Qed.

Lemma is_discrete_true_inv (dims : list (list value)) :
  _is_discrete dims = Ok true →
  Forall (fun dim => 2 ≤ length dim) dims
  ∧ forallb first_two_discrete dims = true.
Proof.
  induction dims as [|dim dims IH]; [done|].
  destruct dim as [|d0 [|d1 rest]].
  - done.
  - cbn. by destruct (negb _).
  - rewrite is_discrete_cons by (cbn; lia). cbn [forallb].
    destruct (first_two_discrete _); [|done].
    intros H. destruct (IH H) as [Hlen Hall]. split; [|done].
    constructor; [cbn; lia|done].
Qed.

End enumeration_errors.

(** X6: the enumeration after the check.  On a space that [_is_discrete]
    accepts, [_calculate_discrete_space] never raises its ValueError: it
    fails with a TypeError when some dimension has an integer first and a
    label second, and returns as many coordinates as dimensions
    otherwise. *)
Theorem is_discrete_then_enumerate (dims : list (list value)) :
  _is_discrete dims = Ok true →
  if existsb int_then_label dims
  then _calculate_discrete_space dims = Raise TypeError
  else is_ok (_calculate_discrete_space dims) = true.
Proof.
  intros [Hlen Hall]%is_discrete_true_inv.
  pose proof (mapM_dimspace_of_discrete dims Hlen Hall) as Hm.
  unfold _calculate_discrete_space.
  destruct (existsb int_then_label dims); [by rewrite Hm|].
  destruct Hm as (total & -> & Htotal). cbn [mbind result_bind].
  destruct (Nat.eqb_spec (length dims) 1) as [H1|H1]; [|done].
  destruct total as [|d total]; [cbn in Htotal; lia|done].
Qed.

Lemma is_discrete_then_enumerate_witness :
  _calculate_discrete_space [[VInt 1; VStr "a"]; [VStr "x"; VStr "y"]]
  = Raise TypeError
  ∧ is_ok (_calculate_discrete_space [[VInt 1; VInt 2]; [VStr "x"; VStr "y"]])
    = true.
Proof.
  split.
  - apply (is_discrete_then_enumerate
             [[VInt 1; VStr "a"]; [VStr "x"; VStr "y"]]). reflexivity.
  - apply (is_discrete_then_enumerate
             [[VInt 1; VInt 2]; [VStr "x"; VStr "y"]]). reflexivity.
Defined.

(** X7: a dimension whose first entry is a float stops the enumeration with
    the ValueError, whatever follows it, once the dimensions before it have
    been enumerated. *)
Theorem enumerate_float_dimension (pre post : list (list value))
    (f : float) (rest : list value) :
  Forall (fun dim => is_ok (dimspace_of dim) = true) pre →
  _calculate_discrete_space (pre ++ (VFloat f :: rest) :: post)
  = Raise ValueError.
Proof.
  intros Hpre. unfold _calculate_discrete_space.
  by rewrite (mapM_app_raise dimspace_of pre post (VFloat f :: rest) ValueError).
Qed.

Lemma enumerate_float_dimension_witness :
  _calculate_discrete_space
    [[VInt 1; VInt 2]; [VFloat 0.5; VFloat 1.5]; [VStr "a"]]
  = Raise ValueError.
Proof.
  apply (enumerate_float_dimension [[VInt 1; VInt 2]] [[VStr "a"]] 0.5
           [VFloat 1.5]).
  repeat constructor.
Defined.

(** X8: the points of a space of one dimension are one-element lists; the
    points of any other space are tuples with one coordinate per
    dimension. *)
Theorem enumerate_point_kinds (dims : list (list value)) (pts : list pyobj) :
  _calculate_discrete_space dims = Ok pts →
  if Nat.eqb (length dims) 1
  then Forall (fun p => ∃ v, p = PList [v]) pts
  else Forall (fun p => ∃ l, p = PTuple l ∧ length l = length dims) pts.
Proof.
  unfold _calculate_discrete_space. intros H.
  apply bind_ok_inv in H as (total & Htotal & H).
  apply mapM_ok_inv, Forall2_length in Htotal.
  destruct (length dims =? 1).
  - apply bind_ok_inv in H as (d0 & _ & H). injection H as <-.
    apply Forall_fmap, Forall_forall. intros v _. by exists v.
  - injection H as <-. rewrite itertools_product_rec.
    apply Forall_fmap. eapply Forall_impl; [apply product_rec_lengths|].
    intros l Hl. exists l. split; [done|]. by rewrite Hl.
Qed.

Lemma enumerate_point_kinds_witness :
  Forall (fun p => ∃ v, p = PList [v]) [PList [VInt 1]; PList [VInt 2]].
Proof.
  apply (enumerate_point_kinds [[VInt 1; VInt 2]]). reflexivity.
Defined.

(** ** [_dupe_check] *)

Section dupe_check_more.

Lemma py_eq_plain (a b : value) :
  is_float a = false → is_float b = false → py_eq a b = true → a = b.
Proof.
  destruct a, b; try done; cbn; intros _ _ H.
  - by apply Z.eqb_eq in H as ->.
  - by apply String.eqb_eq in H as ->.
Qed.

Lemma py_eq_refl_plain (a : value) : is_float a = false → py_eq a a = true.
Proof.
  destruct a; try done; cbn; intros _.
  - apply Z.eqb_refl.
  - apply String.eqb_refl.
Qed.

Lemma list_eq_plain (l1 l2 : list value) :
  plain l1 = true → plain l2 = true → Py.list_eq l1 l2 = true → l1 = l2.
Proof.
  revert l2. induction l1 as [|a l1 IH]; intros [|b l2]; try done.
  cbn. intros [Ha H1]%andb_prop [Hb H2]%andb_prop [Hab H]%andb_prop.
  apply negb_true_iff in Ha, Hb.
  f_equal; [by apply py_eq_plain|by apply IH].
Qed.

Lemma list_eq_refl_plain (l : list value) :
  plain l = true → Py.list_eq l l = true.
Proof.
  induction l as [|a l IH]; [done|]. cbn. intros [Ha H]%andb_prop.
  apply negb_true_iff in Ha. by rewrite py_eq_refl_plain, IH.
Qed.

Lemma obj_eq_plain_tuple (p : pyobj) (l : list value) :
  (∃ l', p = PTuple l' ∧ plain l' = true) → plain l = true →
  (obj_eq p (PTuple l) = true ↔ p = PTuple l)
  ∧ obj_eq (PTuple l) p = obj_eq p (PTuple l).
Proof.
  intros (l' & -> & Hl') Hl. cbn. split; [split|].
  - intros H. f_equal. by apply list_eq_plain.
  - intros [= ->]. by apply list_eq_refl_plain.
  - destruct (Py.list_eq l l') eqn:E1, (Py.list_eq l' l) eqn:E2; try done.
    + apply list_eq_plain in E1 as ->; [|done..].
      by rewrite list_eq_refl_plain in E2.
    + apply list_eq_plain in E2 as ->; [|done..].
      by rewrite list_eq_refl_plain in E1.
Qed.

Lemma filter_not_in (t : pyobj) (pts : list pyobj) :
  t ∉ pts → (∀ p, p ∈ pts → obj_eq p t = true → p = t) →
  List.filter (fun p => negb (obj_eq p t)) pts = pts.
Proof.
  induction pts as [|p pts IH]; [done|]. intros Hn Heq. cbn.
  destruct (obj_eq p t) eqn:E.
  - destruct Hn. rewrite (Heq p) by (done || left). left.
  - cbn. f_equal. apply IH.
    + intros H. apply Hn. by right.
    + intros q Hq. apply Heq. by right.
Qed.

Lemma remove_is_filter (l : list value) (pts : list pyobj) :
  plain l = true → plain_tuples pts → NoDup pts →
  (if py_in (PTuple l) pts then list_remove (PTuple l) pts else pts)
  = List.filter (fun p => negb (obj_eq p (PTuple l))) pts.
Proof.
  intros Hl Hpts Hnd. induction Hpts as [|p pts Hp Hpts IH]; [done|].
  apply NoDup_cons in Hnd as [Hnotin Hnd].
  destruct (obj_eq_plain_tuple p l Hp Hl) as [Hiff Hsym].
  unfold py_in. cbn [existsb list_remove List.filter]. fold (py_in (PTuple l) pts).
  rewrite Hsym. destruct Hiff as [Hto _].
  destruct (obj_eq p (PTuple l)) eqn:E; cbn [orb negb].
  - rewrite (Hto eq_refl) in *. symmetry. apply filter_not_in; [done|].
    intros q Hq Hqe. rewrite Forall_forall in Hpts.
    by apply (obj_eq_plain_tuple q l (Hpts q Hq) Hl).
  - rewrite <- (IH Hnd). by destruct (py_in (PTuple l) pts).
Qed.

Lemma filter_plain_tuples (f : pyobj → bool) (pts : list pyobj) :
  plain_tuples pts → NoDup pts →
  plain_tuples (List.filter f pts) ∧ NoDup (List.filter f pts).
Proof.
  intros Hpts Hnd. induction Hpts as [|p pts Hp Hpts IH];
    [split; constructor|].
  apply NoDup_cons in Hnd as [Hnotin Hnd]. destruct (IH Hnd) as [IH1 IH2].
  cbn. destruct (f p); [|done]. split; [by constructor|].
  apply NoDup_cons. split; [|done]. intros Hin. apply Hnotin.
  apply list_elem_of_In, filter_In in Hin as [Hin _].
  by apply list_elem_of_In.
Qed.

Lemma dupe_visit_plain (d : doc) (l : list value) (pts : list pyobj) :
  d !! "x" = Some (PList l) → plain l = true → plain_tuples pts → NoDup pts →
  dupe_visit pts d
  = Ok (List.filter (fun p => negb (obj_eq p (PTuple l))) pts).
Proof.
  intros Hd Hl Hpts Hnd. unfold dupe_visit, doc_get. rewrite Hd.
  cbn [mbind result_bind py_tuple obj_items fmap result_fmap].
  rewrite <- (remove_is_filter l pts Hl Hpts Hnd).
  by destruct (py_in (PTuple l) pts).
Qed.

Lemma seen_cons (d : doc) (c : collection) (l : list value) (p : pyobj) :
  d !! "x" = Some (PList l) →
  seen (d :: c) p = obj_eq (PTuple l) p || seen c p.
Proof. intros Hd. unfold seen. cbn [existsb]. by rewrite Hd. Qed.

Lemma filter_filter (f g : pyobj → bool) (pts : list pyobj) :
  List.filter g (List.filter f pts) = List.filter (fun p => g p && f p) pts.
Proof.
  induction pts as [|p pts IH]; [done|]. cbn.
  destruct (f p); cbn; rewrite ?andb_true_r, ?andb_false_r; [|done].
  destruct (g p); by rewrite IH.
Qed.

Lemma filter_all (pts : list pyobj) :
  List.filter (fun _ => true) pts = pts.
Proof. induction pts as [|p pts IH]; [done|]. cbn. by rewrite IH. Qed.

Lemma foldM_dupe_visit_plain (c : collection) (pts : list pyobj) :
  plain_history c → plain_tuples pts → NoDup pts →
  foldM dupe_visit pts c = Ok (List.filter (fun p => negb (seen c p)) pts).
Proof.
  intros Hc. revert pts. induction Hc as [|d c (l & Hd & Hl) _ IH];
    intros pts Hpts Hnd.
  - cbn. by rewrite filter_all.
  - cbn [foldM]. rewrite (dupe_visit_plain d l pts Hd Hl Hpts Hnd).
    cbn [mbind result_bind].
    destruct (filter_plain_tuples (fun p => negb (obj_eq p (PTuple l))) pts
                Hpts Hnd) as [Hpts' Hnd'].
    rewrite (IH _ Hpts' Hnd'). f_equal.
    rewrite filter_filter. apply filter_ext_in. intros p Hp.
    rewrite (seen_cons d c l p Hd), negb_orb.
    unfold plain_tuples in Hpts. rewrite Forall_forall in Hpts.
    apply list_elem_of_In in Hp.
    destruct (obj_eq_plain_tuple p l (Hpts p Hp) Hl) as [_ ->].
    apply andb_comm.
Qed.

End dupe_check_more.

Section dupe_check_fresh.

Lemma seen_stored (c : collection) (q : pyobj) :
  plain_history c → (∃ l, q = PTuple l ∧ plain l = true) →
  seen c q = true ↔ stored c q.
Proof.
  intros Hc Hq. unfold seen, stored. rewrite existsb_exists. split.
  - intros (d & Hin & Hd). apply list_elem_of_In in Hin.
    unfold plain_history in Hc. rewrite Forall_forall in Hc.
    destruct (Hc d Hin) as (l & Hx & Hl). rewrite Hx in Hd.
    destruct (obj_eq_plain_tuple q l Hq Hl) as [Hiff Hsym].
    rewrite Hsym in Hd. exists d, l. split_and!; [done..|]. by apply Hiff.
  - intros (d & l & Hin & Hx & ->). exists d.
    split; [by apply list_elem_of_In|]. rewrite Hx.
    destruct Hq as (l' & [= <-] & Hl). cbn. by apply list_eq_refl_plain.
Qed.

Lemma plain_values_of (d : discrete_dimension) : plain (values_of d) = true.
Proof.
  apply forallb_forall. intros v Hv. apply list_elem_of_In in Hv.
  destruct d; cbn in Hv; apply list_elem_of_fmap in Hv as (? & -> & _); done.
Qed.

Lemma plain_product_rec (pools : list (list value)) :
  Forall (fun pool => plain pool = true) pools →
  Forall (fun l => plain l = true) (product_rec pools).
Proof.
  induction 1 as [|pool pools Hpool _ IH]; cbn [product_rec].
  - by repeat constructor.
  - apply Forall_bind, Forall_forall. intros y Hy. cbn.
    apply Forall_fmap. eapply Forall_impl; [exact IH|].
    intros l Hl. cbn in Hl. unfold compose, plain in *. cbn [forallb].
    rewrite Hl, andb_true_r.
    rewrite forallb_forall in Hpool. by apply Hpool, list_elem_of_In.
Qed.

Lemma enumerate_plain (ds : list discrete_dimension) :
  Forall well_formed ds → length ds ≠ 1 →
  ∃ pts, _calculate_discrete_space (declare <$> ds) = Ok pts
         ∧ plain_tuples pts ∧ NoDup pts.
Proof.
  intros Hwf Hlen. unfold _calculate_discrete_space.
  rewrite (mapM_dimspace_of _ Hwf). cbn [mbind result_bind].
  rewrite length_fmap. destruct (Nat.eqb_spec (length ds) 1); [done|].
  rewrite itertools_product_rec. eexists. split; [done|]. split.
  - apply Forall_fmap.
    eapply Forall_impl;
      [apply plain_product_rec, Forall_fmap, Forall_forall;
       intros d _; apply plain_values_of|].
    intros l Hl. by exists l.
  - apply NoDup_fmap_2; [intros ?? [=]; done|].
    apply NoDup_product_rec, Forall_fmap.
    eapply Forall_impl; [exact Hwf|]. intros d Hd. by apply NoDup_values_of.
Qed.

Lemma random_choice_elem (rnd : nat) (l : list pyobj) :
  l ≠ [] → ∃ p, random_choice rnd l = Ok p ∧ p ∈ l.
Proof.
  intros Hl. unfold random_choice.
  destruct (lookup_lt_is_Some_2 l (rnd mod length l)) as [p Hp].
  - apply Nat.mod_upper_bound. by destruct l.
  - rewrite Hp. exists p. split; [done|]. by eapply list_elem_of_lookup_2.
Qed.

End dupe_check_fresh.

(** X9: in a totally discrete space of no or several dimensions, with a
    history of integer and label points, [_dupe_check] raises the ValueError
    when every point of the space is the x of a stored document; otherwise it
    returns a point of the space that is the x of no stored document, or the
    given [x] when [x] equals such a point. *)
Theorem dupe_check_fresh_point (ds : list discrete_dimension)
    (c : collection) (x : pyobj) (rnd : nat) :
  Forall well_formed ds → length ds ≠ 1 → plain_history c →
  ∃ pts,
    _calculate_discrete_space (declare <$> ds) = Ok pts
    ∧ ((∀ q, q ∈ pts → stored c q) →
         _dupe_check rnd c x (declare <$> ds) = Raise ValueError)
    ∧ ((∃ q, q ∈ pts ∧ ¬ stored c q) →
         ∃ p q, _dupe_check rnd c x (declare <$> ds) = Ok p
                ∧ q ∈ pts ∧ ¬ stored c q
                ∧ (p = q ∨ (p = x ∧ obj_eq x q = true))).
Proof.
  intros Hwf Hlen Hc.
  destruct (enumerate_plain ds Hwf Hlen) as (pts & Hpts & Hplain & Hnd).
  exists pts. split; [done|].
  unfold _dupe_check. rewrite Hpts. cbn [mbind result_bind].
  rewrite (foldM_dupe_visit_plain c pts Hc Hplain Hnd). cbn [mbind result_bind].
  set (avail := List.filter (fun p => negb (seen c p)) pts).
  assert (∀ q, q ∈ avail ↔ q ∈ pts ∧ ¬ stored c q) as Havail.
  { intros q. unfold avail. rewrite list_elem_of_In, filter_In, <- list_elem_of_In.
    split; intros [Hq Hs]; (split; [done|]).
    - apply negb_true_iff in Hs. intros Hst.
      apply seen_stored in Hst; [congruence|done|].
      unfold plain_tuples in Hplain. rewrite Forall_forall in Hplain. eauto.
    - apply negb_true_iff. destruct (seen c q) eqn:E; [|done]. destruct Hs.
      apply seen_stored; [done| |done].
      unfold plain_tuples in Hplain. rewrite Forall_forall in Hplain. eauto. }
  split.
  - intros Hall. destruct avail as [|q avail'] eqn:E; [done|]. exfalso.
    assert (q ∈ q :: avail') as Hq by left.
    apply Havail in Hq as [Hq Hs]. by apply Hs, Hall.
  - intros (q0 & Hq0 & Hs0).
    assert (q0 ∈ avail) as Hin by by apply Havail.
    destruct (Nat.eqb_spec (length avail) 0) as [H0|H0].
    { destruct avail; [by inversion Hin|done]. }
    destruct (py_in x avail) eqn:Hx.
    + unfold py_in in Hx. apply existsb_exists in Hx as (q & Hq & Hxq).
      apply list_elem_of_In, Havail in Hq as [Hq Hs].
      exists x, q. split_and!; [done..|]. by right.
    + destruct (random_choice_elem rnd avail) as (p & -> & Hp).
      { by destruct avail. }
      apply Havail in Hp as [Hp Hs]. exists p, p. split_and!; [done..|].
      by left.
Qed.

Lemma dupe_check_fresh_point_witness :
  _dupe_check 1 [trial [VInt 1; VInt 1] 0 []; trial [VInt 2; VInt 1] 3 []]
    (PList [VInt 1; VInt 1]) (declare <$> [IntRange 1 2; IntRange 1 2])
  = Ok (PTuple [VInt 2; VInt 2]).
Proof.
  destruct (dupe_check_fresh_point [IntRange 1 2; IntRange 1 2]
              [trial [VInt 1; VInt 1] 0 []; trial [VInt 2; VInt 1] 3 []]
              (PList [VInt 1; VInt 1]) 1)
    as (pts & Hpts & _ & Hfresh).
  - repeat constructor.
  - cbn. lia.
  - repeat constructor; by eexists.
  - vm_compute. reflexivity.
Defined.

(** ** [run_task] *)

Section run_task_more.

Context {W : Type}.
Implicit Types (skopt : string → predictor_fun)
  (deserialize_predictor : string → result predictor_fun)
  (self : @task W) (spec : fw_spec) (c : collection).

Lemma run_task_prepare_raise skopt deserialize_predictor self spec rnd c e :
  prepare self spec = Raise e →
  run_task skopt deserialize_predictor self spec rnd c = (c, Raise e).
Proof. intros H. unfold run_task. by rewrite H. Qed.

Lemma prepare_database_raise self spec e :
  database self spec = Raise e → is_ok (prepare self spec) = false.
Proof.
  intros Hdb. unfold prepare.
  destruct (spec_get (_tw_x spec)); [|done]. cbn.
  destruct (spec_get (_tw_y spec)); [|done]. cbn.
  destruct (mapM obj_items (dimensions self)); [|done]. cbn.
  destruct (_ || _); [done|]. destruct (negb _); [done|].
  by rewrite Hdb.
Qed.

End run_task_more.

(** X10: the ledger is append-only.  Whatever an iteration returns or
    raises, it leaves every stored record as it was and adds at most one
    record, which carries the x, y and z of the firework. *)
Theorem run_task_append_only {W : Type}
    (skopt : string → predictor_fun)
    (deserialize_predictor : string → result predictor_fun)
    (self : @task W) (spec : fw_spec) (rnd : nat) (c : collection) :
  (run_task skopt deserialize_predictor self spec rnd c).1 = c
  ∨ ∃ d x y,
      (run_task skopt deserialize_predictor self spec rnd c).1 = c ++ [d]
      ∧ _tw_x spec = Some x ∧ _tw_y spec = Some y
      ∧ d !! "x" = Some (to_bson x) ∧ d !! "y" = Some (to_bson y)
      ∧ is_Some (d !! "z").
Proof.
  unfold run_task.
  destruct (prepare self spec)
    as [[[[[[x y] X_dims] wargs] wkwargs] z]|e] eqn:Hprep; [|by left].
  right. cbn [_store negb fst snd].
  assert (_tw_x spec = Some x ∧ _tw_y spec = Some y) as [Hx Hy].
  { unfold prepare in Hprep.
    apply bind_ok_inv in Hprep as (x0 & Hx & Hprep).
    apply bind_ok_inv in Hprep as (y0 & Hy & Hprep).
    apply bind_ok_inv in Hprep as (X_dims0 & HX & Hprep).
    destruct (_ || _) in Hprep; [done|].
    destruct (negb _) in Hprep; [done|].
    apply bind_ok_inv in Hprep as (db & Hdb & Hprep).
    apply bind_ok_inv in Hprep as (z0 & Hz & Hprep).
    injection Hprep as -> -> _ _ _ _.
    split; [by destruct (_tw_x spec); simplify_eq/=
           |by destruct (_tw_y spec); simplify_eq/=]. }
  destruct (propose _ _ _ _ _ _ _ _) as [[x_new z_new]|e].
  - eexists _, x, y. cbn [fst]. split_and!; [|done..| | |].
    + replace (length c) with (length c + 0) by lia.
      rewrite alter_app_r. reflexivity.
    + rewrite lookup_union_r by done. by rewrite lookup_fmap.
    + rewrite lookup_union_r by done. by rewrite lookup_fmap.
    + rewrite lookup_union_r by done. by rewrite lookup_fmap.
  - eexists _, x, y. cbn [fst]. split_and!; [done..| | |].
    + by rewrite lookup_fmap.
    + by rewrite lookup_fmap.
    + by rewrite lookup_fmap.
Qed.

(** X11: when only some of host, port and name are given, the iteration
    fails and stores nothing, a launchpad in the parameters or in the spec
    notwithstanding. *)
Theorem run_task_partial_address {W : Type}
    (skopt : string → predictor_fun)
    (deserialize_predictor : string → result predictor_fun)
    (self : @task W) (spec : fw_spec) (rnd : nat) (c : collection) :
  present (host self) || present (port self) || present (name self) = true →
  present (host self) && present (port self) && present (name self) = false →
  database self spec = Raise AttributeError
  ∧ (run_task skopt deserialize_predictor self spec rnd c).1 = c
  ∧ is_ok (run_task skopt deserialize_predictor self spec rnd c).2 = false.
Proof.
  intros Hany Hall.
  assert (database self spec = Raise AttributeError) as Hdb.
  { unfold database. rewrite Hany.
    by destruct (host self), (port self), (name self). }
  split; [done|].
  pose proof (prepare_database_raise self spec _ Hdb) as Hprep.
  destruct (prepare self spec) as [?|e] eqn:E; [done|].
  by rewrite (run_task_prepare_raise _ _ _ _ _ _ _ E).
Qed.

Lemma run_task_partial_address_witness :
  (run_task (suggest (PList [VInt 3])) no_custom
     {| wf_creator := record_call; dimensions := [PTuple [VInt 1; VInt 5]];
        get_z := None; predictor := None; max := None;
        wf_creator_args := None; wf_creator_kwargs := None;
        duplicate_check := None;
        host := Some (VStr "localhost"); port := None; name := None;
        opt_label := None;
        lpad := Some {[ "host" := VStr "h"; "port" := VInt 1;
                        "name" := VStr "n" ]} |}
     (evaluated [VInt 2] 7) 0 [trial [VInt 1] 1 []]).1
  = [trial [VInt 1] 1 []].
Proof.
  refine (proj1 (proj2 (run_task_partial_address _ _ _ _ _ _ _ _)));
    reflexivity.
Defined.

(** X12: with no host, port, name or launchpad in the parameters, the key
    '_add_launchpad_and_fw_id' in the spec does not give a database either:
    whatever its value, the iteration raises a NameError once the inputs and
    the argument containers have passed, and stores nothing. *)
Theorem run_task_launchpad_in_spec {W : Type}
    (skopt : string → predictor_fun)
    (deserialize_predictor : string → result predictor_fun)
    (self : @task W) (spec : fw_spec) (rnd : nat) (c : collection)
    (x y : pyobj) (X_dims : list (list value)) (flag : bool) :
  _tw_x spec = Some x → _tw_y spec = Some y →
  mapM obj_items (dimensions self) = Ok X_dims →
  isinstance_list (default (ArgObj (PList [])) (wf_creator_args self)) = true →
  isinstance_dict (default (ArgDict ∅) (wf_creator_kwargs self)) = true →
  host self = None → port self = None → name self = None →
  lpad self = None →
  _add_launchpad_and_fw_id spec = Some flag →
  run_task skopt deserialize_predictor self spec rnd c = (c, Raise NameError).
Proof.
  intros Hx Hy Hdims Hargs Hkwargs Hh Hp Hn Hl Hflag.
  apply run_task_prepare_raise. unfold prepare, database.
  rewrite Hx, Hy, Hdims, Hh, Hp, Hn, Hl, Hflag. cbn.
  destruct (default _ (wf_creator_args self)) as [[| |]|]; try done.
  by destruct (default _ (wf_creator_kwargs self)).
Qed.

Lemma run_task_launchpad_in_spec_witness :
  run_task (suggest (PList [VInt 3])) no_custom
    {| wf_creator := record_call; dimensions := [PTuple [VInt 1; VInt 5]];
       get_z := None; predictor := None; max := None;
       wf_creator_args := None; wf_creator_kwargs := None;
       duplicate_check := None; host := None; port := None; name := None;
       opt_label := None; lpad := None |}
    {| _tw_x := Some (PList [VInt 2]); _tw_y := Some (Scalar (VInt 7));
       _add_launchpad_and_fw_id := Some true |} 0 []
  = ([], Raise NameError).
Proof.
  apply (run_task_launchpad_in_spec _ _ _ _ _ _ (PList [VInt 2])
           (Scalar (VInt 7)) [[VInt 1; VInt 5]] true); reflexivity.
Defined.

Section run_task_inversion.

Context {W : Type}.
Implicit Types (skopt : string → predictor_fun)
  (deserialize_predictor : string → result predictor_fun)
  (self : @task W) (spec : fw_spec) (c : collection).

(** A successful iteration, taken apart. *)
Lemma run_task_ok_inv skopt deserialize_predictor self spec rnd c c' act :
  run_task skopt deserialize_predictor self spec rnd c = (c', Ok act) →
  ∃ x y X_dims wargs wkwargs z x_new z_new args kwargs,
    prepare self spec = Ok (x, y, X_dims, wargs, wkwargs, z)
    ∧ propose skopt deserialize_predictor self rnd
        (c ++ [to_bson <$> {[ "z" := z; "y" := y; "x" := x ]}]) x z X_dims
      = Ok (x_new, z_new)
    ∧ star_args wargs = Ok args
    ∧ star_kwargs wkwargs = Ok kwargs
    ∧ wf_creator self x_new args kwargs = Ok (additions act).
Proof.
  unfold run_task. intros Hrun.
  destruct (prepare self spec)
    as [[[[[[x y] X_dims] wargs] wkwargs] z]|e] eqn:Hprep;
    [|by inversion Hrun].
  cbn [_store negb fst snd] in Hrun.
  destruct (propose _ _ _ _ _ _ _ _) as [[x_new z_new]|e] eqn:Hprop;
    [|by inversion Hrun].
  injection Hrun as _ Hact.
  apply bind_ok_inv in Hact as (args & Hargs & Hact).
  apply bind_ok_inv in Hact as (kwargs & Hkwargs & Hact).
  apply bind_ok_inv in Hact as (wf & Hwf & Hact).
  injection Hact as <-.
  by exists x, y, X_dims, wargs, wkwargs, z, x_new, z_new, args, kwargs.
Qed.

Lemma prepare_ok_inv self spec x y X_dims wargs wkwargs z :
  prepare self spec = Ok (x, y, X_dims, wargs, wkwargs, z) →
  _tw_x spec = Some x
  ∧ mapM obj_items (dimensions self) = Ok X_dims
  ∧ wargs = default (ArgObj (PList [])) (wf_creator_args self)
  ∧ wkwargs = default (ArgDict ∅) (wf_creator_kwargs self)
  ∧ isinstance_list wargs = true
  ∧ isinstance_dict wkwargs = true.
Proof.
  unfold prepare. intros Hprep.
  apply bind_ok_inv in Hprep as (x0 & Hx & Hprep).
  apply bind_ok_inv in Hprep as (y0 & Hy & Hprep).
  apply bind_ok_inv in Hprep as (X_dims0 & HX & Hprep).
  destruct (negb (isinstance_list _) || _) eqn:Hl in Hprep; [done|].
  destruct (negb (isinstance_dict _)) eqn:Hd in Hprep; [done|].
  apply bind_ok_inv in Hprep as (db & Hdb & Hprep).
  apply bind_ok_inv in Hprep as (z0 & Hz & Hprep).
  injection Hprep as -> _ -> <- <- _.
  apply orb_false_iff in Hl as [Hl _]. apply negb_false_iff in Hl, Hd.
  split_and!; try done. by destruct (_tw_x spec); simplify_eq/=.
Qed.

End run_task_inversion.



(** X14: without the duplicate check, or on a space that is not discrete,
    the new point is the predictor's: in a successful iteration the workflow
    creator is called with the first [len(x)] entries of what the predictor
    returned. *)
Theorem run_task_keeps_candidate {W : Type}
    (skopt : string → predictor_fun)
    (deserialize_predictor : string → result predictor_fun)
    (self : @task W) (spec : fw_spec) (rnd : nat) (c c' : collection)
    (act : FWAction) (X_dims : list (list value)) :
  mapM obj_items (dimensions self) = Ok X_dims →
  duplicate_check self ≠ Some true ∨ _is_discrete X_dims = Ok false →
  run_task skopt deserialize_predictor self spec rnd c = (c', Ok act) →
  ∃ x X_tot Y X_tot_dims x_tot_new n x_new args kwargs,
    _tw_x spec = Some x
    ∧ predict skopt deserialize_predictor self X_tot Y X_tot_dims
      = Ok x_tot_new
    ∧ py_len x = Ok n
    ∧ slice_to n x_tot_new = Ok x_new
    ∧ wf_creator self x_new args kwargs = Ok (additions act).
Proof.
  intros Hdims Hskip Hrun.
  apply run_task_ok_inv in Hrun
    as (x & y & X_dims' & wargs & wkwargs & z & x_new & z_new & args & kwargs
        & Hprep & Hprop & Hargs & Hkwargs & Hwf).
  apply prepare_ok_inv in Hprep as (Hx & Hdims' & _).
  rewrite Hdims in Hdims'. injection Hdims' as <-.
  unfold propose in Hprop.
  apply bind_ok_inv in Hprop as ([X_tot Y] & Hgather & Hprop).
  apply bind_ok_inv in Hprop as (Y' & HY & Hprop).
  apply bind_ok_inv in Hprop as (X_tot_dims & HXd & Hprop).
  apply bind_ok_inv in Hprop as (x_tot_new & Hpred & Hprop).
  apply bind_ok_inv in Hprop as (n & Hn & Hprop).
  apply bind_ok_inv in Hprop as (x_new0 & Hxn & Hprop).
  apply bind_ok_inv in Hprop as (z_new0 & Hzn & Hprop).
  apply bind_ok_inv in Hprop as (x_new1 & Hdup & Hprop).
  injection Hprop as -> ->.
  assert (x_new0 = x_new) as ->.
  { destruct (duplicate_check self) as [[|]|] eqn:Hd;
      [|by injection Hdup..].
    destruct Hskip as [Hne|Hdisc]; [done|].
    rewrite Hdisc in Hdup. by injection Hdup. }
  by exists x, X_tot, Y', X_tot_dims, x_tot_new, n, x_new, args, kwargs.
Qed.

Lemma run_task_keeps_candidate_witness :
  ∃ x_new args kwargs,
    slice_to 1 (PList [VInt 3; VInt 9]) = Ok x_new
    ∧ record_call x_new args kwargs = Ok (PList [VInt 3], [], ∅).
Proof.
  destruct (run_task_keeps_candidate (suggest (PList [VInt 3; VInt 9]))
              no_custom
              (loop_task [PTuple [VInt 1; VFloat 5.5]] (Some true) None)
              (evaluated [VInt 2] 7) 0 []
              [ <[ "x_new" := PList [VInt 3] ]>
                  (<[ "z_new" := PList [VInt 9] ]> (trial [VInt 2] 7 [])) ]
              {| additions := (PList [VInt 3], [], ∅); optimization_id := 0 |}
              [[VInt 1; VFloat 5.5]])
    as (x & X_tot & Y & X_tot_dims & x_tot_new & n & x_new & args & kwargs
        & Hx & Hpred & Hn & Hslice & Hwf).
  - reflexivity.
  - right. reflexivity.
  - vm_compute. reflexivity.
  - injection Hx as <-. injection Hpred as <-. injection Hn as <-.
    by exists x_new, args, kwargs.
Defined.

(** ** The queries of [ManageDB], continued *)

Section queries_more.

Implicit Types (var : string) (d : document) (c : list document).

Lemma collect_input var (acc : list value) d (inp : gmap string value) v :
  d !! "input" = Some inp → inp !! var = Some v →
  collect var acc d = Ok (acc ++ [v]).
Proof. intros Hi Hv. unfold collect, side. rewrite Hi. cbn. by rewrite Hv. Qed.

Lemma foldM_collect_input var c (vs acc : list value) :
  Forall2 (fun d v => ∃ inp, d !! "input" = Some inp ∧ inp !! var = Some v)
          c vs →
  foldM (collect var) acc c = Ok (acc ++ vs).
Proof.
  intros H. revert acc. induction H as [|d v c vs (inp & Hi & Hv) _ IH];
    intros acc.
  - cbn. by rewrite app_nil_r.
  - cbn [foldM]. rewrite (collect_input _ _ _ _ _ Hi Hv).
    cbn [mbind result_bind]. rewrite IH. by rewrite <- app_assoc.
Qed.

Lemma found_integers var c (vs : list Z) :
  Forall2 (fun d v => found var d = Some (VInt v)) c vs →
  Forall (carries var) c ∧ omap (found var) c = VInt <$> vs.
Proof.
  induction 1 as [|d v c vs Hv _ [IH1 IH2]]; [done|]. split.
  - constructor; [|done]. unfold carries. by rewrite Hv.
  - cbn. rewrite Hv. cbn. by rewrite IH2.
Qed.

Lemma py_sum_integers (vs : list Z) (a : Z) :
  foldM py_add (VInt a) (VInt <$> vs) = Ok (VInt (a + foldr Z.add 0%Z vs)).
Proof.
  revert a. induction vs as [|v vs IH]; intros a; cbn.
  - by rewrite Z.add_0_r.
  - rewrite IH. do 2 f_equal. lia.
Qed.

Lemma sum_bounds (vs : list Z) (lo hi : Z) :
  Forall (fun v => (lo ≤ v ≤ hi)%Z) vs →
  (lo * Z.of_nat (length vs) ≤ foldr Z.add 0 vs ≤ hi * Z.of_nat (length vs))%Z.
Proof.
  induction 1 as [|v vs Hv _ IH]; cbn [foldr length]; [lia|].
  rewrite Nat2Z.inj_succ. lia.
Qed.

End queries_more.

(** X15: [get_param] returns the input-side value of every record that has
    the key on its input side, one per record and in order, whatever the
    output sides hold and whether or not they exist. *)
Theorem get_param_input_side (var : string)
    (c : list (gmap string (gmap string value))) (vs : list value) :
  Forall2 (fun d v => ∃ inp, d !! "input" = Some inp ∧ inp !! var = Some v)
          c vs →
  get_param var c = Ok vs.
Proof. intros H. unfold get_param. by rewrite (foldM_collect_input _ _ vs). Qed.

Lemma get_param_input_side_witness :
  get_param "a" [ {[ "input" := {[ "a" := VInt 1 ]} ]};
                  record [("a", VInt 2)] [("a", VInt 9)] ]%string
  = Ok [VInt 1; VInt 2].
Proof.
  apply get_param_input_side.
  repeat constructor; eexists; (split; [reflexivity|]); reflexivity.
Defined.

(** X16: on integer values [get_avg] goes by the type of the first one.
    When the first value fits 32 bits, and so is read back as an [int], the
    result is the floor of the mean of all the values, which lies between any
    bounds of the values.  When it does not, it is read back as a [long],
    neither test of the type holds and the result is 0. *)
Theorem get_avg_integers (var : string)
    (c : list (gmap string (gmap string value))) (v0 : Z) (vs : list Z) :
  Forall two_sided c →
  Forall2 (fun d v => found var d = Some (VInt v)) c (v0 :: vs) →
  get_avg var c
  = Ok (VInt (if bool_decide (- 2 ^ 31 ≤ v0 < 2 ^ 31)%Z
              then foldr Z.add 0%Z (v0 :: vs) / Z.of_nat (length (v0 :: vs))
              else 0))
  ∧ ∀ lo hi, Forall (fun v => (lo ≤ v ≤ hi)%Z) (v0 :: vs) →
      (lo ≤ foldr Z.add 0 (v0 :: vs) / Z.of_nat (length (v0 :: vs)) ≤ hi)%Z.
Proof.
  intros Hc Hvs. destruct (found_integers var c _ Hvs) as [Hall Hom].
  assert (0 < Z.of_nat (length (v0 :: vs)))%Z as Hpos by (cbn; lia).
  split.
  - unfold get_avg. rewrite (foldM_collect_all _ _ _ Hc Hall), Hom.
    cbn [app mbind result_bind].
    change (getitem (VInt <$> v0 :: vs) 0) with (Ok (VInt v0)).
    cbn [mbind result_bind type_is_int type_is_float].
    case_bool_decide; [|done].
    unfold py_sum.
    rewrite py_sum_integers. cbn [mbind result_bind py_div].
    rewrite length_fmap. destruct (Z.eqb_spec (Z.of_nat (length (v0 :: vs))) 0);
      [lia|]. cbn. do 2 f_equal.
  - intros lo hi Hb. pose proof (sum_bounds _ lo hi Hb) as [H1 H2]. split.
    + apply Z.div_le_lower_bound; lia.
    + apply Z.div_le_upper_bound; lia.
Qed.

Lemma get_avg_integers_witness :
  get_avg "a" [record [("a", VInt 1)] []; record [] [("a", VInt 4)]]%string
  = Ok (VInt 2)
  ∧ get_avg "a" [record [("a", VInt (2 ^ 40))] [];
                 record [] [("a", VInt 4)]]%string
    = Ok (VInt 0).
Proof.
  split.
  - destruct (get_avg_integers "a"
                [record [("a", VInt 1)] []; record [] [("a", VInt 4)]]%string
                1 [4]%Z) as [Havg _].
    + repeat constructor; vm_compute; by eexists.
    + repeat constructor.
    + rewrite Havg. reflexivity.
  - destruct (get_avg_integers "a"
                [record [("a", VInt (2 ^ 40))] [];
                 record [] [("a", VInt 4)]]%string
                (2 ^ 40) [4]%Z) as [Havg _].
    + repeat constructor; vm_compute; by eexists.
    + repeat constructor.
    + rewrite Havg. reflexivity.
Defined.





Section optima.

Implicit Types (var : string) (d : document) (c : list document).

Lemma foldM_app {A B} (f : A → B → result A) (a : A) (l1 l2 : list B) :
  foldM f a (l1 ++ l2) = foldM f a l1 ≫= fun a' => foldM f a' l2.
Proof.
  revert a. induction l1 as [|b l1 IH]; intros a; [done|].
  cbn [app foldM]. destruct (f a b); [|done]. cbn. apply IH.
Qed.

Lemma optima_visit_integer var (m : string) (again : result unit) d (v : Z)
    (st : optima) :
  two_sided d → found var d = Some (VInt v) →
  ∃ inp, d !! "input" = Some inp
         ∧ optima_visit var m again st d = track m again (VInt v) inp st.
Proof.
  intros [[inp Hi] [out Ho]]. unfold found, optima_visit, side.
  rewrite Hi, Ho. cbn. destruct (inp !! var); [intros [= ->]|intros ->];
    by exists inp.
Qed.

(** The state of the loop of [get_optima] with 'min' after the records [c]
    with the integer values [vs]: the smallest value and the input side of
    the first record that has it. *)
Lemma foldM_optima_min var c (vs : list Z) :
  Forall two_sided c →
  Forall2 (fun d v => found var d = Some (VInt v)) c vs →
  ∃ st,
    foldM (optima_visit var "min" (Ok ()))
      {| o_min := None; o_max := None; optima_params := ∅ |} c = Ok st
    ∧ (c = [] → o_min st = None ∧ optima_params st = ∅)
    ∧ (c ≠ [] →
       ∃ i d m,
         o_min st = Some (VInt m)
         ∧ c !! i = Some d ∧ vs !! i = Some m
         ∧ d !! "input" = Some (optima_params st)
         ∧ (∀ v, v ∈ vs → (m ≤ v)%Z)
         ∧ ∀ j v, j < i → vs !! j = Some v → (m < v)%Z).
Proof.
  revert vs. induction c as [|d c IH] using rev_ind; intros vs Hc Hvs.
  - eexists. split; [done|]. split; [done|]. done.
  - apply Forall_app in Hc as [Hc Hd]. apply Forall_inv in Hd.
    apply Forall2_app_inv_l in Hvs as (vs1 & vs2 & Hvs1 & Hvs2 & ->).
    apply Forall2_cons_inv_l in Hvs2 as (v & vs3 & Hv & Hnil & ->).
    apply Forall2_nil_inv_l in Hnil as ->.
    destruct (IH vs1 Hc Hvs1) as (st & Hst & Hempty & Hnonempty).
    rewrite foldM_app, Hst. cbn [mbind result_bind foldM].
    destruct (optima_visit_integer var "min" (Ok ()) d v st Hd Hv)
      as (inp & Hinp & ->).
    pose proof (Forall2_length _ _ _ Hvs1) as Hlen.
    destruct c as [|d0 c'].
    + destruct (Hempty eq_refl) as [Hmin _].
      apply Forall2_nil_inv_l in Hvs1 as ->.
      unfold track. cbn [String.eqb Ascii.eqb Bool.eqb]. rewrite Hmin.
      eexists. split; [done|]. split; [done|]. intros _.
      exists 0, d, v. cbn. split_and!; try done.
      * intros w Hw. apply list_elem_of_singleton in Hw as ->. lia.
      * intros j w Hj. lia.
    + destruct Hnonempty as (i & di & m & Hmin & Hi & Hvi & Hpar & Hle & Hlt);
        [done|].
      pose proof (lookup_lt_Some _ _ _ Hvi) as Hilt.
      unfold track. cbn [String.eqb Ascii.eqb Bool.eqb]. rewrite Hmin.
      cbn [py_lt]. destruct (Z.ltb_spec v m) as [Hvm|Hvm].
      * eexists. split; [done|]. split; [by destruct c'|]. intros _.
        exists (length (d0 :: c')), d, v. cbn [o_min optima_params].
        split_and!; try done.
        -- by rewrite lookup_app_r, Nat.sub_diag by lia.
        -- by rewrite lookup_app_r, Hlen, Nat.sub_diag by lia.
        -- intros w [Hw|Hw]%elem_of_app.
           ++ specialize (Hle w Hw). lia.
           ++ apply list_elem_of_singleton in Hw as ->. lia.
        -- intros j w Hj Hw. rewrite lookup_app_l in Hw by lia.
           assert (m ≤ w)%Z; [|lia].
           apply Hle. by eapply list_elem_of_lookup_2.
      * eexists. split; [done|]. split; [by destruct c'|]. intros _.
        exists i, di, m. split_and!; try done.
        -- rewrite lookup_app_l; [done|]. by eapply lookup_lt_Some.
        -- by rewrite lookup_app_l.
        -- intros w [Hw|Hw]%elem_of_app; [by apply Hle|].
           apply list_elem_of_singleton in Hw as ->. lia.
        -- intros j w Hj Hw. rewrite lookup_app_l in Hw by lia.
           by apply (Hlt j).
Qed.

(** The same with 'max': the largest value and the input side of the last
    record that has it, the test being [>=]. *)
Lemma foldM_optima_max var c (vs : list Z) :
  Forall two_sided c →
  Forall2 (fun d v => found var d = Some (VInt v)) c vs →
  ∃ st,
    foldM (optima_visit var "max" (Ok ()))
      {| o_min := None; o_max := None; optima_params := ∅ |} c = Ok st
    ∧ (c = [] → o_max st = None ∧ optima_params st = ∅)
    ∧ (c ≠ [] →
       ∃ i d m,
         o_max st = Some (VInt m)
         ∧ c !! i = Some d ∧ vs !! i = Some m
         ∧ d !! "input" = Some (optima_params st)
         ∧ (∀ v, v ∈ vs → (v ≤ m)%Z)
         ∧ ∀ j v, i < j → vs !! j = Some v → (v < m)%Z).
Proof.
  revert vs. induction c as [|d c IH] using rev_ind; intros vs Hc Hvs.
  - eexists. split; [done|]. split; [done|]. done.
  - apply Forall_app in Hc as [Hc Hd]. apply Forall_inv in Hd.
    apply Forall2_app_inv_l in Hvs as (vs1 & vs2 & Hvs1 & Hvs2 & ->).
    apply Forall2_cons_inv_l in Hvs2 as (v & vs3 & Hv & Hnil & ->).
    apply Forall2_nil_inv_l in Hnil as ->.
    destruct (IH vs1 Hc Hvs1) as (st & Hst & Hempty & Hnonempty).
    rewrite foldM_app, Hst. cbn [mbind result_bind foldM].
    destruct (optima_visit_integer var "max" (Ok ()) d v st Hd Hv)
      as (inp & Hinp & ->).
    pose proof (Forall2_length _ _ _ Hvs1) as Hlen.
    destruct c as [|d0 c'].
    + destruct (Hempty eq_refl) as [Hmax _].
      apply Forall2_nil_inv_l in Hvs1 as ->.
      unfold track. cbn [String.eqb Ascii.eqb Bool.eqb]. rewrite Hmax.
      eexists. split; [done|]. split; [done|]. intros _.
      exists 0, d, v. cbn. split_and!; try done.
      * intros w Hw. apply list_elem_of_singleton in Hw as ->. lia.
      * intros j w Hj Hw. destruct j; [lia|done].
    + destruct Hnonempty as (i & di & m & Hmax & Hi & Hvi & Hpar & Hle & Hlt);
        [done|].
      pose proof (lookup_lt_Some _ _ _ Hvi) as Hilt.
      unfold track. cbn [String.eqb Ascii.eqb Bool.eqb]. rewrite Hmax.
      unfold py_ge, py_gt. cbn [py_lt py_eq].
      destruct (Z.ltb_spec m v) as [Hmv|Hmv]; cbn [orb];
        [|destruct (Z.eqb_spec v m) as [Heq|Hne]].
      1,2: eexists; split; [done|]; split; [by destruct c'|]; intros _;
        exists (length (d0 :: c')), d, v; cbn [o_max optima_params];
        split_and!; try done.
      1,5: by rewrite lookup_app_r, Nat.sub_diag by lia.
      1,4: by rewrite lookup_app_r, Hlen, Nat.sub_diag by lia.
      1,3: (intros w [Hw|Hw]%elem_of_app;
              [specialize (Hle w Hw); lia
              |apply list_elem_of_singleton in Hw as ->; lia]).
      1,2: (intros j w Hj Hw; apply lookup_lt_Some in Hw;
              rewrite length_app in Hw; cbn in Hw; lia).
      eexists. split; [done|]. split; [by destruct c'|]. intros _.
      exists i, di, m. split_and!; try done.
      * rewrite lookup_app_l; [done|]. by eapply lookup_lt_Some.
      * by rewrite lookup_app_l.
      * intros w [Hw|Hw]%elem_of_app; [by apply Hle|].
        apply list_elem_of_singleton in Hw as ->. lia.
      * intros j w Hj Hw.
        destruct (decide (j < length vs1)) as [Hjl|Hjl].
        -- rewrite lookup_app_l in Hw by done. by apply (Hlt j).
        -- rewrite lookup_app_r in Hw by lia.
           destruct (j - length vs1); [|done]. injection Hw as <-. lia.
Qed.

Lemma foldM_ext {A B} (f g : A → B → result A) (a : A) (l : list B) :
  (∀ a b, f a b = g a b) → foldM f a l = foldM g a l.
Proof.
  intros Hfg. revert a. induction l as [|b l IH]; intros a; [done|].
  cbn [foldM]. rewrite Hfg. destruct (g a b); [|done]. cbn. apply IH.
Qed.

(** With 'min' or 'max' the scan never runs the fallback. *)
Lemma optima_scan_min_again var (again : result unit) c :
  optima_scan var "min" again c = optima_scan var "min" (Ok ()) c.
Proof.
  unfold optima_scan.
  by rewrite (foldM_ext (optima_visit var "min" again)
                (optima_visit var "min" (Ok ()))).
Qed.

Lemma optima_scan_max_again var (again : result unit) c :
  optima_scan var "max" again c = optima_scan var "max" (Ok ()) c.
Proof.
  unfold optima_scan.
  by rewrite (foldM_ext (optima_visit var "max" again)
                (optima_visit var "max" (Ok ()))).
Qed.

End optima.

(** X19: on integer values [get_optima] with 'min' returns the smallest
    value together with the input side of the first record that has it. *)
Theorem get_optima_min_integers (var : string)
    (c : list (gmap string (gmap string value))) (vs : list Z) :
  Forall two_sided c →
  Forall2 (fun d v => found var d = Some (VInt v)) c vs →
  c ≠ [] →
  ∃ i d inp m,
    get_optima var "min" c = Ok (Some (Some (VInt m), inp))
    ∧ c !! i = Some d ∧ vs !! i = Some m ∧ d !! "input" = Some inp
    ∧ (∀ v, v ∈ vs → (m ≤ v)%Z)
    ∧ ∀ j v, j < i → vs !! j = Some v → (m < v)%Z.
Proof.
  intros Hc Hvs Hne.
  destruct (foldM_optima_min var c vs Hc Hvs) as (st & Hst & _ & Hnonempty).
  destruct (Hnonempty Hne) as (i & d & m & Hmin & Hi & Hvi & Hpar & Hle & Hlt).
  exists i, d, (optima_params st), m. split_and!; try done.
  unfold get_optima. cbv zeta. rewrite optima_scan_min_again.
  unfold optima_scan. rewrite Hst. cbn. by rewrite Hmin.
Qed.

Lemma get_optima_min_integers_witness :
  get_optima "a" "min"
    [ record [("a", VInt 3); ("b", VInt 0)] [];
      record [("b", VInt 1)] [("a", VInt 2)];
      record [("a", VInt 2); ("b", VInt 2)] [] ]%string
  = Ok (Some (Some (VInt 2), {[ "b" := VInt 1 ]})).
Proof.
  destruct (get_optima_min_integers "a"
              [ record [("a", VInt 3); ("b", VInt 0)] [];
                record [("b", VInt 1)] [("a", VInt 2)];
                record [("a", VInt 2); ("b", VInt 2)] [] ]%string
              [3; 2; 2]%Z)
    as (i & d & inp & m & Hopt & _).
  - repeat constructor; vm_compute; by eexists.
  - repeat constructor.
  - done.
  - rewrite Hopt. vm_compute in Hopt. injection Hopt as <- <-.
    vm_compute. reflexivity.
Defined.

(** X20: with 'max' it returns the largest value together with the input
    side of the last record that has it. *)
Theorem get_optima_max_integers (var : string)
    (c : list (gmap string (gmap string value))) (vs : list Z) :
  Forall two_sided c →
  Forall2 (fun d v => found var d = Some (VInt v)) c vs →
  c ≠ [] →
  ∃ i d inp m,
    get_optima var "max" c = Ok (Some (Some (VInt m), inp))
    ∧ c !! i = Some d ∧ vs !! i = Some m ∧ d !! "input" = Some inp
    ∧ (∀ v, v ∈ vs → (v ≤ m)%Z)
    ∧ ∀ j v, i < j → vs !! j = Some v → (v < m)%Z.
Proof.
  intros Hc Hvs Hne.
  destruct (foldM_optima_max var c vs Hc Hvs) as (st & Hst & _ & Hnonempty).
  destruct (Hnonempty Hne) as (i & d & m & Hmax & Hi & Hvi & Hpar & Hle & Hlt).
  exists i, d, (optima_params st), m. split_and!; try done.
  unfold get_optima. cbv zeta. rewrite optima_scan_max_again.
  unfold optima_scan. rewrite Hst. cbn. by rewrite Hmax.
Qed.

Lemma get_optima_max_integers_witness :
  get_optima "a" "max"
    [ record [("a", VInt 5); ("b", VInt 0)] [];
      record [("b", VInt 1)] [("a", VInt 5)];
      record [("a", VInt 2); ("b", VInt 2)] [] ]%string
  = Ok (Some (Some (VInt 5), {[ "b" := VInt 1 ]})).
Proof.
  destruct (get_optima_max_integers "a"
              [ record [("a", VInt 5); ("b", VInt 0)] [];
                record [("b", VInt 1)] [("a", VInt 5)];
                record [("a", VInt 2); ("b", VInt 2)] [] ]%string
              [5; 5; 2]%Z)
    as (i & d & inp & m & Hopt & _).
  - repeat constructor; vm_compute; by eexists.
  - repeat constructor.
  - done.
  - rewrite Hopt. vm_compute in Hopt. injection Hopt as <- <-.
    vm_compute. reflexivity.
Defined.

(** ** [_Z_dims], continued *)

Section Z_dims_more.

Implicit Types (st : zstate) (c : collection).

Lemma mapM_doc_get_missing c :
  Exists (fun d => d !! "z" = None) c →
  mapM (fun d => doc_get d "z") c = Raise KeyError.
Proof.
  induction c as [|d c IH]; [by inversion 1|]. intros Hex.
  cbn [mapM]. destruct (doc_get d "z") as [o|e] eqn:Hd.
  - cbn [mbind result_bind]. rewrite IH; [done|].
    inversion Hex as [?? Hn|]; subst; [|done].
    unfold doc_get in Hd. by rewrite Hn in Hd.
  - unfold doc_get in Hd. by destruct (d !! "z"); simplify_eq.
Qed.

Lemma mapM_doc_get (c : collection) (zs : list pyobj) :
  Forall2 (fun d z => d !! "z" = Some z) c zs →
  mapM (fun d => doc_get d "z") c = Ok zs.
Proof.
  induction 1 as [|d z c zs Hd _ IH]; [done|].
  cbn [mapM]. assert (doc_get d "z" = Ok z) as -> by (unfold doc_get; by rewrite Hd).
  cbn [mbind result_bind]. by rewrite IH.
Qed.

Lemma in_values_labels (s : string) (ls : list string) :
  in_values (VStr s) (VStr <$> ls) = bool_decide (s ∈ ls).
Proof.
  induction ls as [|l ls IH]; [done|]. cbn.
  change (existsb (py_eq (VStr s)) (VStr <$> ls))
    with (in_values (VStr s) (VStr <$> ls)). rewrite IH.
  destruct (String.eqb_spec s l) as [->|Hne]; cbn.
  - symmetry. apply bool_decide_eq_true_2. left.
  - apply bool_decide_ext. rewrite elem_of_cons.
    split; [by right|]. by intros [?|?].
Qed.

Lemma first_seen_snoc (ls : list string) (s : string) :
  first_seen (ls ++ [s])
  = if bool_decide (s ∈ first_seen ls) then first_seen ls
    else first_seen ls ++ [s].
Proof.
  unfold first_seen. rewrite reverse_snoc. cbn [remove_dups].
  assert (s ∈ reverse (remove_dups (reverse ls)) ↔ s ∈ reverse ls) as Hiff.
  { by rewrite elem_of_reverse, elem_of_remove_dups. }
  destruct (decide_rel elem_of s (reverse ls)) as [Hin|Hin].
  - by rewrite bool_decide_eq_true_2 by by apply Hiff.
  - rewrite bool_decide_eq_false_2 by by rewrite Hiff.
    by rewrite reverse_cons.
Qed.

Lemma foldM_cons {A B} (f : A → B → result A) (a : A) (b : B) (l : list B) :
  foldM f a (b :: l) = f a b ≫= fun a' => foldM f a' l.
Proof. done. Qed.

Lemma foldM_singleton {A B} (f : A → B → result A) (a : A) (b : B) :
  foldM f a [b] = f a b.
Proof. cbn. by destruct (f a b). Qed.

Lemma observe_label (seen : list string) st (s : string) :
  label_obs seen st →
  ∃ st', observe (PList [VStr s]) st 0 = Ok st' ∧ label_obs (seen ++ [s]) st'.
Proof.
  intros [Hcat Hdims]. unfold observe, obj_getitem. cbn.
  rewrite Hcat, in_values_labels.
  destruct (bool_decide_reflect (s ∈ first_seen seen)) as [Hin|Hin]; cbn.
  - exists st. split; [done|]. split.
    + by rewrite first_seen_snoc, bool_decide_eq_true_2.
    + destruct Hdims as [?|[-> _]]; [by left|]. by inversion Hin.
  - eexists. split; [done|]. split; cbn.
    + rewrite first_seen_snoc, bool_decide_eq_false_2 by done.
      by rewrite fmap_app.
    + left. by destruct Hdims as [->|[_ [s0 ->]]].
Qed.

Lemma foldM_observe_labels (seen labels : list string) st :
  label_obs seen st →
  ∃ st',
    foldM (fun st z => foldM (observe z) st [0]) st
          ((fun s => PList [VStr s]) <$> labels) = Ok st'
    ∧ label_obs (seen ++ labels) st'.
Proof.
  revert seen st. induction labels as [|s labels IH]; intros seen st Hst.
  - exists st. by rewrite app_nil_r.
  - destruct (observe_label seen st s Hst) as (st1 & Hobs & Hst1).
    rewrite fmap_cons, foldM_cons, foldM_singleton, Hobs.
    cbn [mbind result_bind].
    destruct (IH _ _ Hst1) as (st' & -> & Hst').
    exists st'. split; [done|]. by rewrite <- app_assoc in Hst'.
Qed.

End Z_dims_more.

(** X21: [_Z_dims] reads every stored record without the protection of the
    history read: one record without z makes it raise a KeyError. *)
Theorem Z_dims_partial_record (c : collection) :
  Exists (fun d => d !! "z" = None) c → _Z_dims c = Raise KeyError.
Proof.
  intros Hex. unfold _Z_dims. by rewrite mapM_doc_get_missing.
Qed.

Lemma Z_dims_partial_record_witness :
  _Z_dims [trial [VInt 1] 5 [VInt 3]; {[ "x" := PList [VInt 2] ]}]
  = Raise KeyError.
Proof.
  apply Z_dims_partial_record. apply Exists_cons_tl, Exists_cons_hd.
  reflexivity.
Defined.

(** X22: for observations of a single categorical feature, the inferred
    dimension is the list of the labels in the order of their first
    occurrence, each once. *)
Theorem Z_dims_labels (c : collection) (labels : list string) :
  Forall2 (fun d s => d !! "z" = Some (PList [VStr s])) c labels →
  labels ≠ [] →
  _Z_dims c = Ok [VStr <$> first_seen labels]
  ∧ NoDup (first_seen labels)
  ∧ ∀ s, s ∈ first_seen labels ↔ s ∈ labels.
Proof.
  intros Hc Hne. split_and!.
  - unfold _Z_dims.
    rewrite (mapM_doc_get c ((fun s => PList [VStr s]) <$> labels)).
    2:{ clear Hne. induction Hc; constructor; done. }
    cbn [mbind result_bind].
    destruct labels as [|s0 labels]; [done|].
    cbn [fmap list_fmap obj_items mbind result_bind length seq].
    destruct (foldM_observe_labels [] (s0 :: labels)
                {| zs_dims := [Own [VStr s0; VStr s0]]; zs_cat := [] |})
      as (st & Hst & Hcat & Hdims).
    { split; [done|]. right. split; [done|]. by exists s0. }
    cbn [fmap list_fmap] in Hst. rewrite Hst. cbn [mbind result_bind app] in *.
    destruct Hdims as [Hdims|[? _]]; [|done].
    assert (∃ l ls, first_seen (s0 :: labels) = l :: ls) as (l & ls & Hfs).
    { destruct (first_seen (s0 :: labels)) as [|l ls] eqn:E; [|by eauto].
      assert (s0 ∈ first_seen (s0 :: labels)) as Hin; [|by rewrite E in Hin; inversion Hin].
      unfold first_seen.
      rewrite elem_of_reverse, elem_of_remove_dups, elem_of_reverse. left. }
    rewrite foldM_singleton, (widen_label st 0 (VStr <$> l :: ls) (VStr l)).
    + cbn [mbind result_bind]. rewrite Hdims. cbn. by rewrite Hcat.
    + right. split; [by rewrite Hdims|]. by rewrite Hcat, Hfs.
    + done.
    + done.
  - unfold first_seen. rewrite reverse_Permutation. apply NoDup_remove_dups.
  - intros s. unfold first_seen.
    by rewrite elem_of_reverse, elem_of_remove_dups, elem_of_reverse.
Qed.

Lemma Z_dims_labels_witness :
  _Z_dims [ {[ "z" := PList [VStr "red"] ]}; {[ "z" := PList [VStr "blue"] ]};
            {[ "z" := PList [VStr "red"] ]}; {[ "z" := PList [VStr "green"] ]} ]
  = Ok [[VStr "red"; VStr "blue"; VStr "green"]].
Proof.
  destruct (Z_dims_labels
              [ {[ "z" := PList [VStr "red"] ]};
                {[ "z" := PList [VStr "blue"] ]};
                {[ "z" := PList [VStr "red"] ]};
                {[ "z" := PList [VStr "green"] ]} ]
              ["red"; "blue"; "red"; "green"]%string) as (Hz & _).
  - repeat constructor.
  - done.
  - rewrite Hz. vm_compute. reflexivity.
Defined.

Section integer_observations.

Implicit Types (st : zstate) (rows : list (list Z)) (r : list Z).

Lemma column_bounds_le rows i lo hi :
  column_bounds rows i lo hi → (lo ≤ hi)%Z.
Proof. intros ((r & Hr & Hlo) & _ & Hb). specialize (Hb r lo Hr Hlo). lia. Qed.

Lemma column_bounds_add rows r i lo hi v :
  column_bounds rows i lo hi → r !! i = Some v →
  column_bounds (r :: rows) i (Z.min lo v) (Z.max hi v).
Proof.
  intros ((rl & Hrl & Hlo) & (rh & Hrh & Hhi) & Hb) Hv. split_and!.
  - destruct (Z.min_spec lo v) as [[_ ->]|[_ ->]].
    + exists rl. split; [by right|done].
    + exists r. split; [by left|done].
  - destruct (Z.max_spec hi v) as [[_ ->]|[_ ->]].
    + exists r. split; [by left|done].
    + exists rh. split; [by right|done].
  - intros r' w [->|Hr']%elem_of_cons Hw.
    + rewrite Hv in Hw. injection Hw as <-. lia.
    + specialize (Hb r' w Hr' Hw). lia.
Qed.

Lemma column_bounds_equiv rows rows' i lo hi :
  (∀ r, r ∈ rows → r ∈ rows') → (∀ r, r ∈ rows' → r ∈ rows) →
  column_bounds rows i lo hi → column_bounds rows' i lo hi.
Proof.
  intros H1 H2 ((rl & Hrl & Hlo) & (rh & Hrh & Hhi) & Hb). split_and!.
  - exists rl. auto.
  - exists rh. auto.
  - intros r v Hr. apply Hb. auto.
Qed.

(** One observation of an integer: the pair becomes the bounds of the
    column with the new value. *)
Lemma observe_int_step st r k lo hi v :
  zs_dims st !! k = Some (Own [VInt lo; VInt hi]) → (lo ≤ hi)%Z →
  r !! k = Some v →
  observe (PList (VInt <$> r)) st k
  = Ok {| zs_dims := <[k := Own [VInt (Z.min lo v); VInt (Z.max hi v)]]>
                       (zs_dims st);
          zs_cat := zs_cat st |}.
Proof.
  intros Hcell Hle Hv. unfold observe, obj_getitem, getitem.
  cbn [obj_items mbind result_bind]. rewrite list_lookup_fmap, Hv.
  cbn [fmap option_fmap option_map mbind result_bind type_in type_of existsb
       pytype_eqb dtypes.others orb].
  rewrite !(read_item_own _ _ _ _ Hcell).
  cbn [getitem lookup list_lookup mbind result_bind py_lt py_gt].
  destruct (Z.ltb_spec v lo) as [H1|H1].
  - rewrite (write_item_own _ _ _ _ _ Hcell). cbn.
    by rewrite Z.min_r, Z.max_l by lia.
  - unfold py_gt. cbn [py_lt]. destruct (Z.ltb_spec hi v) as [H2|H2].
    + rewrite (write_item_own _ _ _ _ _ Hcell). cbn.
      by rewrite Z.min_l, Z.max_r by lia.
    + rewrite Z.min_l, Z.max_l by lia.
      rewrite list_insert_id by done. by destruct st.
Qed.

Lemma observe_int n rows r k st :
  k < n → length r = n → int_obs n rows r k st →
  ∃ st', observe (PList (VInt <$> r)) st k = Ok st'
         ∧ int_obs n rows r (S k) st'.
Proof.
  intros Hk Hr (Hcat & Hlen & Hpos).
  destruct (lookup_lt_is_Some_2 r k) as [v Hv]; [lia|].
  destruct (Hpos k Hk) as (lo & hi & Hcell & Hb).
  rewrite bool_decide_eq_false_2 in Hb by lia.
  rewrite (observe_int_step st r k lo hi v Hcell (column_bounds_le _ _ _ _ Hb) Hv).
  eexists. split; [done|]. split_and!; cbn.
  - done.
  - by rewrite length_insert.
  - intros i Hi. destruct (decide (i = k)) as [->|Hne].
    + exists (Z.min lo v), (Z.max hi v).
      rewrite list_lookup_insert_eq by lia. split; [done|].
      rewrite bool_decide_eq_true_2 by lia. by apply column_bounds_add.
    + rewrite list_lookup_insert_ne by done.
      destruct (Hpos i Hi) as (lo' & hi' & Hcell' & Hb').
      exists lo', hi'. split; [done|].
      by rewrite (bool_decide_ext (i < S k) (i < k)) by lia.
Qed.

Lemma foldM_observe_int n rows r st (m k : nat) :
  k + m = n → length r = n → int_obs n rows r k st →
  ∃ st', foldM (observe (PList (VInt <$> r))) st (seq k m) = Ok st'
         ∧ int_obs n rows r n st'.
Proof.
  revert k st. induction m as [|m IH]; intros k st Hkm Hr Hst.
  - exists st. split; [done|]. by assert (n = k) as -> by lia.
  - destruct (observe_int n rows r k st) as (st1 & Hobs & Hst1);
      [lia|done..|].
    cbn [seq]. rewrite foldM_cons, Hobs. cbn [mbind result_bind].
    apply IH; [lia|done..].
Qed.

(** A whole row processed is a row more among the processed ones. *)
Lemma int_obs_next n rows r r' st :
  int_obs n rows r n st → int_obs n (r :: rows) r' 0 st.
Proof.
  intros (Hcat & Hlen & Hpos). split_and!; [done..|].
  intros i Hi. destruct (Hpos i Hi) as (lo & hi & Hcell & Hb).
  exists lo, hi. split; [done|].
  rewrite bool_decide_eq_true_2 in Hb by done.
  by rewrite bool_decide_eq_false_2 by lia.
Qed.

Lemma foldM_observe_rows n (todo rows : list (list Z)) r st :
  Forall (fun r => length r = n) todo → int_obs n rows r 0 st →
  ∃ st',
    foldM (fun st z => foldM (observe z) st (seq 0 n)) st
          ((fun r => PList (VInt <$> r)) <$> todo) = Ok st'
    ∧ int_obs n (reverse todo ++ rows) r 0 st'.
Proof.
  intros Htodo. revert rows r st.
  induction Htodo as [|r1 todo Hr1 _ IH]; intros rows r st Hst.
  - by exists st.
  - assert (int_obs n rows r1 0 st) as Hst0.
    { destruct Hst as (Hcat & Hlen & Hpos). split_and!; [done..|].
      intros i Hi. destruct (Hpos i Hi) as (lo & hi & Hcell & Hb).
      exists lo, hi. split; [done|].
      rewrite bool_decide_eq_false_2 in Hb |- * by lia. done. }
    destruct (foldM_observe_int n rows r1 st n 0) as (st1 & Hobs & Hst1);
      [lia|done..|].
    rewrite fmap_cons, foldM_cons, Hobs. cbn [mbind result_bind].
    destruct (IH (r1 :: rows) r st1 (int_obs_next _ _ _ _ _ Hst1))
      as (st' & -> & Hst').
    exists st'. split; [done|].
    by rewrite reverse_cons, <- app_assoc.
Qed.

(** The widening of a pair of integer bounds. *)
Lemma widen_int_pair st i lo hi :
  i < length (zs_dims st) →
  zs_dims st !! i = Some (Own [VInt lo; VInt hi]) → (lo ≤ hi)%Z →
  widen st i
  = Ok {| zs_dims := <[i := Own [VInt (lo - 1); VInt (hi + 1)]]> (zs_dims st);
          zs_cat := zs_cat st |}.
Proof.
  intros Hi H Hle. unfold widen.
  rewrite (read_item_own _ _ _ _ H).
  cbn [getitem lookup list_lookup mbind result_bind].
  pose proof (fun a => lookup_after_write st i 0 _ a Hi H) as H0.
  cbn [type_in type_of existsb pytype_eqb dtypes.numbers dtypes.floats
       dtypes.ints app orb py_sub py_add arith mbind result_bind].
  rewrite (read_item_own _ _ _ _ (H0 _)).
  cbn [getitem lookup list_lookup list_insert insert mbind result_bind
       py_add arith].
  rewrite (write_write _ _ _ _ _ H Hi).
  unfold read_item. cbn [zs_dims zs_cat]. rewrite list_lookup_insert_eq by done.
  cbn. unfold py_gt. cbn.
  destruct (Z.ltb_spec (hi + 1) (lo - 1)); [lia|done].
Qed.

Lemma widen_int n rows k st :
  k < n → int_widened n rows k st →
  ∃ st', widen st k = Ok st' ∧ int_widened n rows (S k) st'.
Proof.
  intros Hk (Hlen & Hpos).
  destruct (Hpos k Hk) as (lo & hi & Hcell & Hb).
  rewrite bool_decide_eq_false_2 in Hcell by lia.
  rewrite (widen_int_pair st k lo hi) by
    (done || lia || by eapply column_bounds_le).
  eexists. split; [done|]. split; cbn; [by rewrite length_insert|].
  intros i Hi. destruct (decide (i = k)) as [->|Hne].
  - exists lo, hi. rewrite list_lookup_insert_eq by lia.
    by rewrite bool_decide_eq_true_2 by lia.
  - rewrite list_lookup_insert_ne by done.
    destruct (Hpos i Hi) as (lo' & hi' & Hcell' & Hb').
    exists lo', hi'. split; [|done].
    by rewrite (bool_decide_ext (i < S k) (i < k)) by lia.
Qed.

Lemma foldM_widen_int n rows st (m k : nat) :
  k + m = n → int_widened n rows k st →
  ∃ st', foldM widen st (seq k m) = Ok st' ∧ int_widened n rows n st'.
Proof.
  revert k st. induction m as [|m IH]; intros k st Hkm Hst.
  - exists st. split; [done|]. by assert (n = k) as -> by lia.
  - destruct (widen_int n rows k st) as (st1 & Hw & Hst1); [lia|done|].
    cbn [seq]. rewrite foldM_cons, Hw. cbn [mbind result_bind].
    apply IH; [lia|done].
Qed.

End integer_observations.

(** X23: for integer features over any number of observations of the same
    length, the inferred dimension of each feature is
    [(lowest - 1, highest + 1)], the lowest and highest observed values
    widened by one: the widening is not kept for the case of a single
    observation. *)
Theorem Z_dims_integer_bounds (c : collection) (rows : list (list Z))
    (n : nat) :
  Forall2 (fun d r => d !! "z" = Some (PList (VInt <$> r))) c rows →
  Forall (fun r => length r = n) rows →
  rows ≠ [] →
  ∃ dims,
    _Z_dims c = Ok dims
    ∧ length dims = n
    ∧ ∀ i, i < n →
        ∃ lo hi, dims !! i = Some [VInt (lo - 1); VInt (hi + 1)]
                 ∧ column_bounds rows i lo hi.
Proof.
  intros Hc Hrows Hne. unfold _Z_dims.
  rewrite (mapM_doc_get c ((fun r => PList (VInt <$> r)) <$> rows)).
  2:{ clear Hne Hrows. induction Hc; constructor; done. }
  cbn [mbind result_bind].
  destruct rows as [|r0 rows]; [done|].
  pose proof (Forall_inv Hrows) as Hr0. cbn beta in Hr0.
  rewrite fmap_cons.
  cbn [obj_items mbind result_bind]. rewrite !length_fmap, Hr0.
  set (st0 := {| zs_dims := (fun z => Own [z; z]) <$> (VInt <$> r0);
                 zs_cat := [] |}).
  assert (int_obs n [r0] r0 0 st0) as Hst0.
  { unfold int_obs, st0. cbn [zs_dims zs_cat].
    split_and!; [done|by rewrite !length_fmap|]. intros i Hi.
    destruct (lookup_lt_is_Some_2 r0 i) as [v Hv]; [lia|].
    exists v, v. cbn. rewrite !list_lookup_fmap, Hv. split; [done|].
    rewrite bool_decide_eq_false_2 by lia. split_and!.
    - exists r0. split; [left|done].
    - exists r0. split; [left|done].
    - intros r w Hr%list_elem_of_singleton Hw. subst r.
      rewrite Hv in Hw. injection Hw as <-. lia. }
  destruct (foldM_observe_rows n (r0 :: rows) [r0] r0 st0 Hrows Hst0)
    as (st1 & Hobs & (Hcat & Hlen & Hpos)).
  rewrite fmap_cons in Hobs. rewrite Hobs. cbn [mbind result_bind].
  assert (int_widened n (r0 :: rows) 0 st1) as Hst1.
  { split; [done|]. intros i Hi.
    destruct (Hpos i Hi) as (lo & hi & Hcell & Hb). exists lo, hi.
    rewrite bool_decide_eq_false_2 in Hb |- * by lia. split; [done|].
    eapply column_bounds_equiv; [| |exact Hb].
    - intros r [Hr|Hr]%elem_of_app.
      + by rewrite elem_of_reverse in Hr.
      + apply list_elem_of_singleton in Hr as ->. left.
    - intros r Hr. apply elem_of_app. left. by rewrite elem_of_reverse. }
  destruct (foldM_widen_int n (r0 :: rows) st1 n 0 eq_refl Hst1)
    as (st2 & -> & (Hlen2 & Hpos2)).
  cbn [mbind result_bind]. eexists. split; [done|].
  split; [by rewrite length_fmap|].
  intros i Hi. destruct (Hpos2 i Hi) as (lo & hi & Hcell & Hb).
  exists lo, hi. split; [|done].
  rewrite list_lookup_fmap, Hcell.
  by rewrite bool_decide_eq_true_2 by done.
Qed.

Lemma Z_dims_integer_bounds_witness :
  _Z_dims [ {[ "z" := PList [VInt 3; VInt 10] ]};
            {[ "z" := PList [VInt 7; VInt 4] ]};
            {[ "z" := PList [VInt 5; VInt 6] ]} ]
  = Ok [[VInt 2; VInt 8]; [VInt 3; VInt 11]].
Proof.
  destruct (Z_dims_integer_bounds
              [ {[ "z" := PList [VInt 3; VInt 10] ]};
                {[ "z" := PList [VInt 7; VInt 4] ]};
                {[ "z" := PList [VInt 5; VInt 6] ]} ]
              [[3; 10]; [7; 4]; [5; 6]]%Z 2) as (dims & Hz & _).
  - repeat constructor.
  - repeat constructor.
  - done.
  - rewrite Hz. vm_compute in Hz. injection Hz as <-. reflexivity.
Defined.

(** ** Function handles *)

Import Handles.

Section handles.

Lemma rsplit_last_none (sep : ascii) (s : string) :
  str_contains sep s = false → rsplit_last sep s = None.
Proof.
  induction s as [|a s IH]; [done|]. cbn.
  intros [Ha Hs]%orb_false_iff. by rewrite (IH Hs), Ha.
Qed.

Lemma rsplit_last_app (sep : ascii) (l r : string) :
  str_contains sep r = false →
  rsplit_last sep (l +:+ String sep r) = Some (l, r).
Proof.
  intros Hr. induction l as [|a l IH].
  - change (rsplit_last sep (String sep r) = Some (EmptyString, r)). cbn.
    by rewrite (rsplit_last_none _ _ Hr), Ascii.eqb_refl.
  - change (rsplit_last sep (String a (l +:+ String sep r))
            = Some (String a l, r)).
    cbn. by rewrite IH.
Qed.

Lemma str_contains_app (c : ascii) (l r : string) :
  str_contains c (l +:+ r) = str_contains c l || str_contains c r.
Proof.
  induction l as [|a l IH]; [done|].
  change (str_contains c (String a (l +:+ r))
          = str_contains c (String a l) || str_contains c r).
  cbn. by rewrite IH, orb_assoc.
Qed.

Lemma str_app_assoc (a b c : string) : a +:+ b +:+ c = (a +:+ b) +:+ c.
Proof.
  induction a as [|x a IH]; [done|].
  change (String x (a +:+ b +:+ c) = String x ((a +:+ b) +:+ c)).
  by rewrite IH.
Qed.

Lemma rsplit_found (sep : ascii) (l r : string) :
  str_contains sep r = false → rsplit sep (l +:+ String sep r) = [l; r].
Proof. intros Hr. unfold rsplit. by rewrite rsplit_last_app. Qed.

Lemma rsplit_missing (sep : ascii) (s : string) :
  str_contains sep s = false → rsplit sep s = [s].
Proof. intros Hs. unfold rsplit. by rewrite rsplit_last_none. Qed.

Lemma str_contains_sep (sep : ascii) (l r : string) :
  str_contains sep (l +:+ String sep r) = true.
Proof.
  rewrite str_contains_app. cbn. rewrite Ascii.eqb_refl. apply orb_true_r.
Qed.

End handles.

(** X24: a handle [path/module.function], where the module name has no
    slash and the function name no dot, appends [path] to [sys.path], imports
    the module under the extended path and returns its attribute
    [function]; the path stays appended when the import or the attribute
    lookup fails. *)
Theorem deserialize_function_path {F : Type}
    (import_module : list string → string → string → result (gmap string F))
    (path modname funcname : string) (sys_path : list string) :
  str_contains "/" modname = false →
  str_contains "." funcname = false →
  _deserialize_function import_module
    (path +:+ "/" +:+ modname +:+ "." +:+ funcname) sys_path
  = (sys_path ++ [path],
     mod_ ← import_module (sys_path ++ [path]) modname funcname;
     getattr mod_ funcname).
Proof.
  intros Hm Hf. unfold _deserialize_function. cbv zeta.
  rewrite (str_app_assoc path), (str_app_assoc (path +:+ "/")).
  change ("." +:+ funcname) with (String "." funcname).
  rewrite (rsplit_found _ _ _ Hf). cbn [unpack_pair lookup list_lookup default].
  unfold id. rewrite <- (str_app_assoc path).
  change ("/" +:+ modname) with (String "/" modname).
  rewrite str_contains_sep, (rsplit_found _ _ _ Hm). done.
Qed.

Lemma deserialize_function_path_witness :
  _deserialize_function
    (fun sys_path modname _ =>
       if bool_decide ("/opt/flows"%string ∈ sys_path) && String.eqb modname "wf"
       then Ok {[ "make"%string := 7%nat ]} else Raise NameError)
    "/opt/flows/wf.make" ["/usr/lib"]%string
  = (["/usr/lib"; "/opt/flows"]%string, Ok 7%nat).
Proof.
  rewrite (deserialize_function_path _ "/opt/flows" "wf" "make");
    [|reflexivity..].
  vm_compute. reflexivity.
Defined.

(** X25: a handle [module.function] without a slash before its last dot
    leaves [sys.path] as it is, imports the whole text before the last dot,
    dots included, and returns the attribute named after it. *)
Theorem deserialize_function_module {F : Type}
    (import_module : list string → string → string → result (gmap string F))
    (modname funcname : string) (sys_path : list string) :
  str_contains "/" modname = false →
  str_contains "." funcname = false →
  _deserialize_function import_module (modname +:+ "." +:+ funcname) sys_path
  = (sys_path,
     mod_ ← import_module sys_path modname funcname;
     getattr mod_ funcname).
Proof.
  intros Hm Hf. unfold _deserialize_function. cbv zeta.
  change ("." +:+ funcname) with (String "." funcname).
  rewrite (rsplit_found _ _ _ Hf). cbn [unpack_pair lookup list_lookup default].
  unfold id. by rewrite Hm.
Qed.

Lemma deserialize_function_module_witness :
  _deserialize_function
    (fun _ modname _ =>
       if String.eqb modname "turboworks.examples"
       then Ok {[ "wf_creator"%string := 7%nat ]} else Raise NameError)
    "turboworks.examples.wf_creator" ["/usr/lib"]%string
  = (["/usr/lib"]%string, Ok 7%nat).
Proof.
  rewrite (deserialize_function_module _ "turboworks.examples" "wf_creator");
    [|reflexivity..].
  vm_compute. reflexivity.
Defined.

(** X26: a handle without a dot raises a ValueError, whatever could be
    imported, and leaves [sys.path] as it is. *)
Theorem deserialize_function_no_dot {F : Type}
    (import_module : list string → string → string → result (gmap string F))
    (fun_ : string) (sys_path : list string) :
  str_contains "." fun_ = false →
  _deserialize_function import_module fun_ sys_path
  = (sys_path, Raise ValueError).
Proof.
  intros Hf. unfold _deserialize_function. cbv zeta.
  by rewrite (rsplit_missing _ _ Hf).
Qed.

Lemma deserialize_function_no_dot_witness :
  _deserialize_function
    (fun _ _ _ => Ok {[ "wf_creator"%string := 7%nat ]})
    "/opt/flows/wf_creator" ["/usr/lib"]%string
  = (["/usr/lib"]%string, Raise ValueError).
Proof. apply deserialize_function_no_dot. reflexivity. Defined.
